(** * Portrait pose editor: upload handler, prompt composer, generation
      orchestrator ([index.tsx])

    A shallow embedding of the page script.  The script is event driven:
    every listener and every continuation after an [await] is a function
    on the page state, and the browser decides which one runs next.  The
    page state holds the module-level variable [uploadedFile], the DOM
    properties the script reads or writes, the callbacks that are still
    pending (file readers, in-flight service calls, images with
    [onload]/[onerror] installed) and a trace of the effects that leave the
    page (alerts, console output, service calls) or that the lifecycle
    properties count (loading indicator, control enabling).

    Strings are sequences of code units in the range 0..255
    ([String.string]); [undefined] is [None]. *)

From Stdlib Require Import String Ascii List Bool Arith NArith Lia Permutation.
From Stdlib.Strings Require Import Byte.
Import ListNotations.
Local Open Scope string_scope.
Local Open Scope list_scope.

(* ================================================================== *)
(** ** JavaScript string primitives used by the script *)
(* ================================================================== *)

Module Js.

(** [s.startsWith(p)] *)
Definition startsWith (s p : string) : bool := String.prefix p s.

(** [s.split(sep)] for a one-character separator: never the empty
    array, [''.split(',')] is [['']]. *)
Fixpoint split (sep : ascii) (s : string) : list string :=
  match s with
  | EmptyString => [EmptyString]
  | String c rest =>
      if Ascii.eqb c sep then EmptyString :: split sep rest
      else match split sep rest with
           | [] => [String c EmptyString]
           | seg :: segs => String c seg :: segs
           end
  end.

(** [a[i]]: [undefined] past the end. *)
Definition index {A : Type} (a : list A) (i : nat) : option A := nth_error a i.

(** A template literal prints [undefined] by name. *)
Definition interpolate (v : option string) : string :=
  match v with
  | Some s => s
  | None => "undefined"
  end.

(** Truthiness of a [string | null]: [null] and [''] are falsy. *)
Definition truthy (v : option string) : bool :=
  match v with
  | Some (String _ _) => true
  | _ => false
  end.

Definition in_range (lo hi : N) (c : ascii) : bool :=
  let n := N_of_ascii c in (lo <=? n)%N && (n <=? hi)%N.

Definition is_digit (c : ascii) : bool := in_range 48 57 c.
Definition is_upper (c : ascii) : bool := in_range 65 90 c.
Definition is_lower (c : ascii) : bool := in_range 97 122 c.

(** The class [[a-z0-9]] under the [i] flag (no [u] flag): a code unit
    above 127 never canonicalises to an ASCII letter, so the class is
    exactly the ASCII letters and digits. *)
Definition class_a_z_0_9_i (c : ascii) : bool :=
  is_lower c || is_upper c || is_digit c.

(** [s.replace(/[^a-z0-9]/gi, r)] for a one-character replacement. *)
Fixpoint replace_non_alnum (r : ascii) (s : string) : string :=
  match s with
  | EmptyString => EmptyString
  | String c rest =>
      String (if class_a_z_0_9_i c then c else r) (replace_non_alnum r rest)
  end.

(** [toLowerCase] on one code unit below 256: A-Z, and the Latin-1
    capitals U+00C0..U+00DE other than the multiplication sign. *)
Definition toLowerCase_unit (c : ascii) : ascii :=
  let n := N_of_ascii c in
  if is_upper c || (in_range 192 222 c && negb (n =? 215)%N)
  then ascii_of_N (n + 32)
  else c.

Fixpoint toLowerCase (s : string) : string :=
  match s with
  | EmptyString => EmptyString
  | String c rest => String (toLowerCase_unit c) (toLowerCase rest)
  end.

(** Number of positions of [hay] at which [needle] starts. *)
Fixpoint occurrences (needle hay : string) : nat :=
  (if String.prefix needle hay then 1 else 0) +
  match hay with
  | EmptyString => 0
  | String _ rest => occurrences needle rest
  end.

(** The double quote, for messages that contain one. *)
Definition dquote : string :=
  String (Ascii false true false false false true false false) EmptyString.

End Js.

(* ================================================================== *)
(** ** The platform: files and [FileReader.readAsDataURL] *)
(* ================================================================== *)

(** A [File]: its [type] and its bytes.  The browser supplies both. *)
Record File := mkFile {
file_type : string;
file_bytes : list byte
}.

Module Platform.

Definition alphabet : list ascii :=
  list_ascii_of_string
    "ABCDEFGHIJKLMNOPQRSTUVWXYZabcdefghijklmnopqrstuvwxyz0123456789+/".

Definition digit (n : N) : ascii := nth (N.to_nat (n mod 64)) alphabet "A"%char.

Definition pad : ascii := "="%char.

Definition quad (a b c d : ascii) (rest : string) : string :=
  String a (String b (String c (String d rest))).

(** RFC 4648 base64: three bytes make four digits, the tail is padded. *)
Fixpoint base64 (bs : list byte) : string :=
  match bs with
  | [] => EmptyString
  | [x] =>
      let a := Byte.to_N x in
      quad (digit (a / 4)) (digit ((a mod 4) * 16)) pad pad EmptyString
  | [x; y] =>
      let a := Byte.to_N x in
      let b := Byte.to_N y in
      quad (digit (a / 4)) (digit ((a mod 4) * 16 + b / 16))
           (digit ((b mod 16) * 4)) pad EmptyString
  | x :: y :: z :: rest =>
      let a := Byte.to_N x in
      let b := Byte.to_N y in
      let c := Byte.to_N z in
      quad (digit (a / 4)) (digit ((a mod 4) * 16 + b / 16))
           (digit ((b mod 16) * 4 + c / 64)) (digit (c mod 64))
           (base64 rest)
  end.

(** The [result] of a reader after [readAsDataURL(file)], as the File API
    defines it: the type, then the base64 text of the bytes. *)
Definition readAsDataURL (f : File) : string :=
  ("data:" ++ file_type f ++ ";base64," ++ base64 (file_bytes f))%string.

End Platform.

(* ================================================================== *)
(** ** Data model *)
(* ================================================================== *)

(** The object held by [uploadedFile].  [base64] is whatever
    [split(',')[1]] gave, so it can be [undefined]. *)
Record UploadedFile := mkUploadedFile {
  base64 : option string;
  mimeType : string
}.

(** The service response, as far as the script reads it:
    [response.candidates[0].content.parts], each part with an optional
    [inlineData].  Every level may be missing. *)
Record Blob := mkBlob {
  blob_data : option string;
  blob_mimeType : option string
}.

Record Part := mkPart {
  inlineData : option Blob;
  text : option string
}.

Record Content := mkContent { parts : option (list Part) }.

Record Candidate := mkCandidate { content : option Content }.

Record Response := mkResponse { candidates : option (list Candidate) }.

Inductive Modality := IMAGE | TEXT.

Inductive RequestPart :=
| InlinePart (data : option string) (mime : string)
| TextPart (t : string).

(** The argument of [ai.models.generateContent]. *)
Record Request := mkRequest {
  model : string;
  contents_parts : list RequestPart;
  responseModalities : list Modality
}.

(** A thrown value. *)
Inductive JsError :=
| TypeError (msg : string)
| ServiceError (msg : string).

(** How the promise of [generateContent] settles. *)
Inductive Settled :=
| Fulfilled (r : Response)
| Rejected (e : JsError).

(** How [await generateImage(...)] completes in the click handler. *)
Inductive Completion :=
| Return (resultSrc : option string)
| Throw (e : JsError).

(** The branch of the click handler that a completion selects: the
    [if (resultSrc)] branch, or one of the two error tiles. *)
Inductive Outcome :=
| Succeeded (resultSrc : string)
| Failed (message : string).

(** The [div.result-container] the handler builds: the [img] and the
    download link. *)
Record ResultContainer := mkResultContainer {
  img_src : string;
  img_alt : string;
  download_href : string;
  download_name : string
}.

(** The three tiles of the results grid: [div.result-placeholder],
    [div.result-error] with its [textContent], [div.result-container]. *)
Inductive Tile :=
| Placeholder
| ErrorTile (textContent : string)
| ImageTile (c : ResultContainer).

(** A DOM node: [node_id] is its identity, fixed by [createElement]. *)
Record Node := mkNode {
  node_id : nat;
  node_tile : Tile
}.

(** Effects that leave the page, and the two writes the lifecycle counts. *)
Inductive Effect :=
| Alert (msg : string)
| ConsoleError (msg : string) (e : JsError)
| GenerateContent (req : Request)
| LoadingHidden (hidden : bool)
| ControlsDisabled (disabled : bool).

(** [disabled] of the five controls of [setControlsDisabled]. *)
Record Controls := mkControls {
  generateBtn_disabled : bool;
  poseSelect_disabled : bool;
  expressionSelect_disabled : bool;
  styleSelect_disabled : bool;
  cameraAngleSelect_disabled : bool
}.

(** [value] of the four selects. *)
Record Selection := mkSelection {
  poseSelect_value : string;
  expressionSelect_value : string;
  styleSelect_value : string;
  cameraAngleSelect_value : string
}.

(** The upload surface. *)
Record UploadView := mkUploadView {
  imagePreview_src : option string;
  imagePreview_hidden : bool;
  uploadPlaceholder_hidden : bool;
  imageUploader_dragover : bool
}.

(** A click handler suspended at [await generateImage(combinedPrompt)]:
    the placeholder and the prompt its continuation closes over. *)
Record Attempt := mkAttempt {
  att_placeholder : nat;
  att_prompt : string
}.

(** An [img] with [onload] and [onerror] installed: the placeholder and
    the container the two closures hold. *)
Record ImageLoad := mkImageLoad {
  il_placeholder : nat;
  il_container : Node
}.

Record Page := mkPage {
  uploadedFile : option UploadedFile;
  view : UploadView;
  controls : Controls;
  selection : Selection;
  loadingIndicator_hidden : bool;
  loadingMessage : string;
  resultsGrid : list Node;
  next_node : nat;
  readers : list File;
  requests : list Attempt;
  images : list ImageLoad;
  trace : list Effect
}.

(** Field updates. *)
Definition set_uploadedFile (v : option UploadedFile) (st : Page) : Page :=
  mkPage v (view st) (controls st) (selection st) (loadingIndicator_hidden st)
    (loadingMessage st) (resultsGrid st) (next_node st) (readers st)
    (requests st) (images st) (trace st).

Definition set_view (v : UploadView) (st : Page) : Page :=
  mkPage (uploadedFile st) v (controls st) (selection st)
    (loadingIndicator_hidden st) (loadingMessage st) (resultsGrid st)
    (next_node st) (readers st) (requests st) (images st) (trace st).

Definition set_controls (v : Controls) (st : Page) : Page :=
  mkPage (uploadedFile st) (view st) v (selection st)
    (loadingIndicator_hidden st) (loadingMessage st) (resultsGrid st)
    (next_node st) (readers st) (requests st) (images st) (trace st).

Definition set_selection (v : Selection) (st : Page) : Page :=
  mkPage (uploadedFile st) (view st) (controls st) v
    (loadingIndicator_hidden st) (loadingMessage st) (resultsGrid st)
    (next_node st) (readers st) (requests st) (images st) (trace st).

Definition set_loadingIndicator_hidden (v : bool) (st : Page) : Page :=
  mkPage (uploadedFile st) (view st) (controls st) (selection st) v
    (loadingMessage st) (resultsGrid st) (next_node st) (readers st)
    (requests st) (images st) (trace st).

Definition set_loadingMessage (v : string) (st : Page) : Page :=
  mkPage (uploadedFile st) (view st) (controls st) (selection st)
    (loadingIndicator_hidden st) v (resultsGrid st) (next_node st)
    (readers st) (requests st) (images st) (trace st).

Definition set_resultsGrid (v : list Node) (st : Page) : Page :=
  mkPage (uploadedFile st) (view st) (controls st) (selection st)
    (loadingIndicator_hidden st) (loadingMessage st) v (next_node st)
    (readers st) (requests st) (images st) (trace st).

Definition set_next_node (v : nat) (st : Page) : Page :=
  mkPage (uploadedFile st) (view st) (controls st) (selection st)
    (loadingIndicator_hidden st) (loadingMessage st) (resultsGrid st) v
    (readers st) (requests st) (images st) (trace st).

Definition set_readers (v : list File) (st : Page) : Page :=
  mkPage (uploadedFile st) (view st) (controls st) (selection st)
    (loadingIndicator_hidden st) (loadingMessage st) (resultsGrid st)
    (next_node st) v (requests st) (images st) (trace st).

Definition set_requests (v : list Attempt) (st : Page) : Page :=
  mkPage (uploadedFile st) (view st) (controls st) (selection st)
    (loadingIndicator_hidden st) (loadingMessage st) (resultsGrid st)
    (next_node st) (readers st) v (images st) (trace st).

Definition set_images (v : list ImageLoad) (st : Page) : Page :=
  mkPage (uploadedFile st) (view st) (controls st) (selection st)
    (loadingIndicator_hidden st) (loadingMessage st) (resultsGrid st)
    (next_node st) (readers st) (requests st) v (trace st).

(** Effects are recorded newest first. *)
Definition emit (e : Effect) (st : Page) : Page :=
  mkPage (uploadedFile st) (view st) (controls st) (selection st)
    (loadingIndicator_hidden st) (loadingMessage st) (resultsGrid st)
    (next_node st) (readers st) (requests st) (images st) (e :: trace st).

Definition alert (msg : string) (st : Page) : Page := emit (Alert msg) st.

(* ================================================================== *)
(** ** DOM operations on the results grid *)
(* ================================================================== *)

(** [document.createElement] followed by the property writes that make
    the node a tile: a node with a fresh identity. *)
Definition createElement (t : Tile) (st : Page) : Node * Page :=
  (mkNode (next_node st) t, set_next_node (S (next_node st)) st).

(** [resultsGrid.contains(node)].  Tiles are only ever direct children of
    the grid, and nothing below a tile is itself a tile. *)
Definition contains (grid : list Node) (node : nat) : bool :=
  existsb (fun c => Nat.eqb (node_id c) node) grid.

(** [resultsGrid.replaceChild(newChild, oldChild)].  The DOM throws when
    [oldChild] is not a child; the script calls it only behind
    [contains]. *)
Fixpoint replaceChild (newChild : Node) (oldChild : nat) (grid : list Node)
  : list Node :=
  match grid with
  | [] => []
  | c :: cs =>
      if Nat.eqb (node_id c) oldChild then newChild :: cs
      else c :: replaceChild newChild oldChild cs
  end.

(** [resultsGrid.append(node)] *)
Definition append (node : Node) (st : Page) : Page :=
  set_resultsGrid (resultsGrid st ++ [node]) st.

(* ================================================================== *)
(** ** Upload handler *)
(* ================================================================== *)

(** [reader.onload] of the reader that [handleFile(file)] created;
    [result] is [reader.result]. *)
Definition reader_onload (file : File) (result : string) (st : Page) : Page :=
  let base64String := Js.index (Js.split ","%char result) 1 in
  let st := set_uploadedFile (Some (mkUploadedFile base64String (file_type file))) st in
  let st :=
    set_view
      (mkUploadView
         (Some ("data:" ++ file_type file ++ ";base64,"
                ++ Js.interpolate base64String)%string)
         false
         true
         (imageUploader_dragover (view st)))
      st in
  set_controls
    (mkControls false
       (poseSelect_disabled (controls st))
       (expressionSelect_disabled (controls st))
       (styleSelect_disabled (controls st))
       (cameraAngleSelect_disabled (controls st)))
    st.

(** [handleFile]: the reader it starts is added to the pending readers. *)
Definition handleFile (file : File) (st : Page) : Page :=
  if negb (Js.startsWith (file_type file) "image/") then
    alert "Please select an image file." st
  else
    set_readers (readers st ++ [file]) st.

(** [handleFileSelect]: [files] is [target.files]. *)
Definition handleFileSelect (files : option (list File)) (st : Page) : Page :=
  match files with
  | Some (file :: _) => handleFile file st
  | _ => st
  end.

Definition set_dragover (b : bool) (st : Page) : Page :=
  set_view
    (mkUploadView (imagePreview_src (view st)) (imagePreview_hidden (view st))
       (uploadPlaceholder_hidden (view st)) b)
    st.

(** The [dragover], [dragleave] and [drop] listeners; [files] is
    [e.dataTransfer?.files]. *)
Definition dragover (st : Page) : Page := set_dragover true st.

Definition dragleave (st : Page) : Page := set_dragover false st.

Definition drop (files : option (list File)) (st : Page) : Page :=
  let st := set_dragover false st in
  match files with
  | Some (file :: _) => handleFile file st
  | _ => st
  end.

(* ================================================================== *)
(** ** Prompt composer and service call *)
(* ================================================================== *)

(** The template literal of [combinedPrompt]. *)
Definition combinedPrompt (sel : Selection) : string :=
  (poseSelect_value sel ++ ", with " ++ expressionSelect_value sel ++ ", "
   ++ styleSelect_value sel ++ ", captured " ++ cameraAngleSelect_value sel)%string.

Definition instruction_head : string :=
  "From the image provided, change the subject to be ".

Definition instruction_tail : string :=
  ". It is critical to keep the subject's face and the original background unchanged. Only alter the body's pose and expression.".

(** [textPart.text] in [generateImage]. *)
Definition textPart (prompt : string) : string :=
  (instruction_head ++ prompt ++ instruction_tail)%string.

(** The call [generateImage] makes when an image is uploaded. *)
Definition generateImage_request (up : UploadedFile) (prompt : string) : Request :=
  mkRequest "gemini-2.5-flash-image-preview"
    [InlinePart (base64 up) (mimeType up); TextPart (textPart prompt)]
    [IMAGE; TEXT].

(** [generateImage] up to its [await]: [None] is the early
    [return null], otherwise the request to send. *)
Definition generateImage_start (prompt : string) (st : Page) : option Request :=
  match uploadedFile st with
  | None => None
  | Some up => Some (generateImage_request up prompt)
  end.

(** [response.candidates[0].content.parts], which throws a [TypeError]
    as soon as one level is missing (the last one in [for ... of]). *)
Definition response_parts (r : Response) : JsError + list Part :=
  match candidates r with
  | None => inl (TypeError "candidates is undefined")
  | Some cs =>
      match Js.index cs 0 with
      | None => inl (TypeError "candidates[0] is undefined")
      | Some cand =>
          match content cand with
          | None => inl (TypeError "content is undefined")
          | Some ct =>
              match parts ct with
              | None => inl (TypeError "parts is not iterable")
              | Some ps => inr ps
              end
          end
      end
  end.

(** The [for] loop over the parts: the data URI of the first part that
    has [inlineData], [null] when there is none. *)
Fixpoint first_inline (ps : list Part) : option string :=
  match ps with
  | [] => None
  | part :: rest =>
      match inlineData part with
      | Some blob =>
          Some ("data:" ++ Js.interpolate (blob_mimeType blob) ++ ";base64,"
                ++ Js.interpolate (blob_data blob))%string
      | None => first_inline rest
      end
  end.

(** The body of the [try] in [generateImage], from the settled call on. *)
Definition generateImage_try (s : Settled) : JsError + option string :=
  match s with
  | Rejected e => inl e
  | Fulfilled r =>
      match response_parts r with
      | inl e => inl e
      | inr ps => inr (first_inline ps)
      end
  end.

Definition api_error_message (prompt : string) : string :=
  ("API Error for prompt " ++ Js.dquote ++ prompt ++ Js.dquote ++ ":")%string.

(** [generateImage] after its [await]: the [catch] logs and rethrows. *)
Definition generateImage_resume (prompt : string) (s : Settled) (st : Page)
  : Completion * Page :=
  match generateImage_try s with
  | inr resultSrc => (Return resultSrc, st)
  | inl e => (Throw e, emit (ConsoleError (api_error_message prompt) e) st)
  end.

(* ================================================================== *)
(** ** Generation orchestrator *)
(* ================================================================== *)

Definition createPlaceholder (st : Page) : Node * Page :=
  createElement Placeholder st.

Definition createErrorTile (message : string) (st : Page) : Node * Page :=
  createElement (ErrorTile message) st.

Definition setControlsDisabled (disabled : bool) (st : Page) : Page :=
  emit (ControlsDisabled disabled)
    (set_controls (mkControls disabled disabled disabled disabled disabled) st).

(** [loadingIndicator.classList.remove('hidden')] and [.add('hidden')] *)
Definition loadingIndicator_show (st : Page) : Page :=
  emit (LoadingHidden false) (set_loadingIndicator_hidden false st).

Definition loadingIndicator_hide (st : Page) : Page :=
  emit (LoadingHidden true) (set_loadingIndicator_hidden true st).

(** [cleanPrompt] and the [download] attribute. *)
Definition cleanPrompt (prompt : string) : string :=
  Js.toLowerCase (Js.replace_non_alnum "_"%char prompt).

Definition download_filename (prompt : string) : string :=
  ("generated_" ++ cleanPrompt prompt ++ ".png")%string.

(** The container built in the success branch. *)
Definition result_container (resultSrc prompt : string) : ResultContainer :=
  mkResultContainer resultSrc ("Generated image: " ++ prompt)%string resultSrc
    (download_filename prompt).

(** [if (resultsGrid.contains(placeholder))
       resultsGrid.replaceChild(createErrorTile(message), placeholder)] *)
Definition replace_with_error (placeholder : nat) (message : string) (st : Page)
  : Page :=
  if contains (resultsGrid st) placeholder then
    let '(tile, st) := createErrorTile message st in
    set_resultsGrid (replaceChild tile placeholder (resultsGrid st)) st
  else st.

(** [img.onload] *)
Definition img_onload (il : ImageLoad) (st : Page) : Page :=
  if contains (resultsGrid st) (il_placeholder il) then
    set_resultsGrid
      (replaceChild (il_container il) (il_placeholder il) (resultsGrid st)) st
  else st.

(** [img.onerror] *)
Definition img_onerror (il : ImageLoad) (st : Page) : Page :=
  replace_with_error (il_placeholder il) "Failed to load image." st.

(** Which branch of the handler a completion of [generateImage] takes:
    [if (resultSrc)], its [else], or the [catch]. *)
Definition outcome (c : Completion) : Outcome :=
  match c with
  | Return resultSrc =>
      if Js.truthy resultSrc then Succeeded (Js.interpolate resultSrc)
      else Failed "Generation failed."
  | Throw _ => Failed "API error."
  end.

(** The click handler from the completion of [await generateImage] to
    its end. *)
Definition click_resume (att : Attempt) (c : Completion) (st : Page) : Page :=
  let st :=
    match outcome c with
    | Succeeded resultSrc =>
        let '(container, st) :=
          createElement (ImageTile (result_container resultSrc (att_prompt att))) st in
        set_images (images st ++ [mkImageLoad (att_placeholder att) container]) st
    | Failed message => replace_with_error (att_placeholder att) message st
    end in
  let st := loadingIndicator_hide st in
  setControlsDisabled false st.

(** The click handler up to its [await]. *)
Definition click (st : Page) : Page :=
  match uploadedFile st with
  | None => alert "Please upload an image first." st
  | Some _ =>
      let st := setControlsDisabled true st in
      let st := loadingIndicator_show st in
      let st := set_loadingMessage "Generating image..." st in
      let st := set_resultsGrid [] st in
      let '(placeholder, st) := createPlaceholder st in
      let st := append placeholder st in
      let prompt := combinedPrompt (selection st) in
      let att := mkAttempt (node_id placeholder) prompt in
      match generateImage_start prompt st with
      | None => click_resume att (Return None) st
      | Some req => set_requests (requests st ++ [att]) (emit (GenerateContent req) st)
      end
  end.

(** The promise of [generateContent] settles: [generateImage] resumes,
    then the click handler. *)
Definition settle (att : Attempt) (s : Settled) (st : Page) : Page :=
  let '(c, st) := generateImage_resume (att_prompt att) s st in
  click_resume att c st.

(* ================================================================== *)
(** ** The event loop *)
(* ================================================================== *)

Inductive Select := PoseSelect | ExpressionSelect | StyleSelect | CameraAngleSelect.

Definition select_disabled (w : Select) (c : Controls) : bool :=
  match w with
  | PoseSelect => poseSelect_disabled c
  | ExpressionSelect => expressionSelect_disabled c
  | StyleSelect => styleSelect_disabled c
  | CameraAngleSelect => cameraAngleSelect_disabled c
  end.

Definition select_value (w : Select) (v : string) (s : Selection) : Selection :=
  match w with
  | PoseSelect =>
      mkSelection v (expressionSelect_value s) (styleSelect_value s)
        (cameraAngleSelect_value s)
  | ExpressionSelect =>
      mkSelection (poseSelect_value s) v (styleSelect_value s)
        (cameraAngleSelect_value s)
  | StyleSelect =>
      mkSelection (poseSelect_value s) (expressionSelect_value s) v
        (cameraAngleSelect_value s)
  | CameraAngleSelect =>
      mkSelection (poseSelect_value s) (expressionSelect_value s)
        (styleSelect_value s) v
  end.

(** What the browser can deliver to the script. *)
Inductive Event :=
| DragOver
| DragLeave
| Drop (files : option (list File))
| FileInputChange (files : option (list File))
| ReaderLoads (i : nat)
| SelectChange (w : Select) (v : string)
| GenerateClick
| ServiceSettles (i : nat) (s : Settled)
| ImageLoads (i : nat)
| ImageFails (i : nat).

Fixpoint remove_nth {A : Type} (i : nat) (l : list A) : list A :=
  match l, i with
  | [], _ => []
  | _ :: xs, O => xs
  | x :: xs, S j => x :: remove_nth j xs
  end.

(** One turn of the event loop; [None] when the browser cannot deliver
    the event: a disabled control takes no input, and a callback fires
    once, for a pending operation. *)
Definition step (e : Event) (st : Page) : option Page :=
  match e with
  | DragOver => Some (dragover st)
  | DragLeave => Some (dragleave st)
  | Drop files => Some (drop files st)
  | FileInputChange files => Some (handleFileSelect files st)
  | ReaderLoads i =>
      match nth_error (readers st) i with
      | Some file =>
          Some (reader_onload file (Platform.readAsDataURL file)
                  (set_readers (remove_nth i (readers st)) st))
      | None => None
      end
  | SelectChange w v =>
      if select_disabled w (controls st) then None
      else Some (set_selection (select_value w v (selection st)) st)
  | GenerateClick =>
      if generateBtn_disabled (controls st) then None else Some (click st)
  | ServiceSettles i s =>
      match nth_error (requests st) i with
      | Some att => Some (settle att s (set_requests (remove_nth i (requests st)) st))
      | None => None
      end
  | ImageLoads i =>
      match nth_error (images st) i with
      | Some il => Some (img_onload il (set_images (remove_nth i (images st)) st))
      | None => None
      end
  | ImageFails i =>
      match nth_error (images st) i with
      | Some il => Some (img_onerror il (set_images (remove_nth i (images st)) st))
      | None => None
      end
  end.

Fixpoint run (evs : list Event) (st : Page) : option Page :=
  match evs with
  | [] => Some st
  | e :: rest =>
      match step e st with
      | Some st' => run rest st'
      | None => None
      end
  end.

(** The page when the script has just been evaluated: no upload, no
    pending callback, nothing recorded.  The markup decides the rest. *)
Definition script_start (st : Page) : Prop :=
  uploadedFile st = None /\ readers st = [] /\ requests st = [] /\
  images st = [] /\ trace st = [].

Inductive reachable : Page -> Prop :=
| reach_start : forall st, script_start st -> reachable st
| reach_step : forall st e st', reachable st -> step e st = Some st' -> reachable st'.

(* ================================================================== *)
(** ** Notions used to state the specification *)
(* ================================================================== *)

(** *** Prompt and filename *)

(** The four clauses of the combined prompt. *)
Definition clauses (sel : Selection) : list string :=
  [ poseSelect_value sel;
    ("with " ++ expressionSelect_value sel)%string;
    styleSelect_value sel;
    ("captured " ++ cameraAngleSelect_value sel)%string ].

(** Where the four values sit in the instruction text. *)
Definition pose_offset (sel : Selection) : nat :=
  String.length instruction_head.

Definition expression_offset (sel : Selection) : nat :=
  pose_offset sel + String.length (poseSelect_value sel) + String.length ", with ".

Definition style_offset (sel : Selection) : nat :=
  expression_offset sel + String.length (expressionSelect_value sel)
  + String.length ", ".

Definition cameraAngle_offset (sel : Selection) : nat :=
  style_offset sel + String.length (styleSelect_value sel)
  + String.length ", captured ".

(** ASCII letters and digits, and lower-casing of ASCII letters. *)
Definition alphanumeric (c : ascii) : bool :=
  Js.is_digit c || Js.is_upper c || Js.is_lower c.

Definition lower_cased (c : ascii) : ascii :=
  if Js.is_upper c then ascii_of_N (N_of_ascii c + 32) else c.

(** The filename sanitisation in the words of the specification: every
    non-alphanumeric character becomes an underscore, the rest is
    lower-cased. *)
Fixpoint spec_sanitize (s : string) : string :=
  match s with
  | EmptyString => EmptyString
  | String c rest =>
      String (if alphanumeric c then lower_cased c else "_"%char)
             (spec_sanitize rest)
  end.

(** *** Responses *)

(** [b] is the [inlineData] of the first part of [ps] that has one. *)
Inductive first_inline_part : list Part -> Blob -> Prop :=
| first_here : forall p rest b,
    inlineData p = Some b -> first_inline_part (p :: rest) b
| first_later : forall p rest b,
    inlineData p = None -> first_inline_part rest b ->
    first_inline_part (p :: rest) b.

(** No part of [ps] carries inline data. *)
Definition no_inline (ps : list Part) : Prop :=
  Forall (fun p => inlineData p = None) ps.

(** *** The stored upload *)

Definition payload_nonempty (up : UploadedFile) : Prop :=
  exists s, base64 up = Some s /\ s <> EmptyString.

Definition image_typed (up : UploadedFile) : Prop :=
  Js.startsWith (mimeType up) "image/" = true.

(** The invariant in the words of the data model: absent, or a non-empty
    payload with an image type. *)
Definition upload_invariant_as_specified (u : option UploadedFile) : Prop :=
  match u with
  | None => True
  | Some up => payload_nonempty up /\ image_typed up
  end.

(** The upload that the load of a reader stores for [file]. *)
Definition upload_of (file : File) : UploadedFile :=
  mkUploadedFile (Js.index (Js.split ","%char (Platform.readAsDataURL file)) 1)
    (file_type file).

Definition comma_free (s : string) : Prop :=
  ~ In ","%char (list_ascii_of_string s).

(** What the upload handler maintains: the stored upload and every
    pending reader come from a file that passed the type check. *)
Definition upload_checked (st : Page) : Prop :=
  (forall file, In file (readers st) ->
                Js.startsWith (file_type file) "image/" = true) /\
  match uploadedFile st with
  | None => True
  | Some up =>
      exists file,
        up = upload_of file /\ Js.startsWith (file_type file) "image/" = true
  end.

Definition is_reader_load (e : Event) : bool :=
  match e with ReaderLoads _ => true | _ => false end.

(** *** Effects and what the user sees *)

(** The two cleanup writes, service calls and alerts in a stretch of the
    trace; settlements in a run. *)
Definition is_hide (e : Effect) : bool :=
  match e with LoadingHidden true => true | _ => false end.

Definition is_enable (e : Effect) : bool :=
  match e with ControlsDisabled false => true | _ => false end.

Definition is_service_call (e : Effect) : bool :=
  match e with GenerateContent _ => true | _ => false end.

Definition is_alert (e : Effect) : bool :=
  match e with Alert _ => true | _ => false end.

Definition hides (d : list Effect) : nat := length (filter is_hide d).

Definition enables (d : list Effect) : nat := length (filter is_enable d).

Definition calls (d : list Effect) : nat := length (filter is_service_call d).

Definition is_settlement (e : Event) : bool :=
  match e with ServiceSettles _ _ => true | _ => false end.

Definition settlements (evs : list Event) : nat :=
  length (filter is_settlement evs).

Definition all_enabled : Controls := mkControls false false false false false.

(** What the user can see of a page: everything but the pending
    callbacks, the node counter and the trace. *)
Definition visible (st : Page)
  : option UploadedFile * UploadView * Controls * Selection * bool * string
    * list Tile :=
  (uploadedFile st, view st, controls st, selection st,
   loadingIndicator_hidden st, loadingMessage st,
   map node_tile (resultsGrid st)).

(** *** The results grid *)

(** [g'] is [g] with the child [old] replaced by a new node carrying
    [t], every other child kept in place. *)
Inductive swapped (old : nat) (t : Tile) : list Node -> list Node -> Prop :=
| swapped_at : forall before n after id,
    node_id n = old ->
    contains before old = false ->
    swapped old t (before ++ n :: after) (before ++ mkNode id t :: after).

(** What a rendering may do to the grid: swap the placeholder for [t]
    when the grid contains it, nothing otherwise. *)
Definition guarded_swap (placeholder : nat) (t : Tile) (g g' : list Node) : Prop :=
  (contains g placeholder = true -> swapped placeholder t g g') /\
  (contains g placeholder = false -> g' = g).

Definition is_image_tile (n : Node) : Prop :=
  exists c, node_tile n = ImageTile c.

(** The grid after a guarded [replaceChild]. *)
Definition rendered (placeholder : nat) (new : Node) (g g' : list Node) : Prop :=
  g' = g \/ g' = replaceChild new placeholder g.

(** Every pending callback refers to a placeholder that was created
    before: node identities are handed out in increasing order. *)
Definition ids_bounded (st : Page) : Prop :=
  (forall att, In att (requests st) -> att_placeholder att < next_node st) /\
  (forall il, In il (images st) -> il_placeholder il < next_node st).

(** The placeholders that pending callbacks still refer to. *)
Definition pending_placeholders (st : Page) : list nat :=
  map att_placeholder (requests st) ++ map il_placeholder (images st).

(** Each pending callback has a placeholder of its own, created before;
    a built tile is none of these placeholders; and a child of the grid
    that a pending callback refers to is still the placeholder tile. *)
Definition placeholders_owned (st : Page) : Prop :=
  NoDup (pending_placeholders st) /\
  (forall p, In p (pending_placeholders st) -> p < next_node st) /\
  (forall il, In il (images st) ->
     node_id (il_container il) < next_node st /\
     ~ In (node_id (il_container il)) (pending_placeholders st)) /\
  (forall n, In n (resultsGrid st) ->
     In (node_id n) (pending_placeholders st) -> node_tile n = Placeholder).

(** What one turn of the event loop does to the pending callbacks, the
    grid and the node counter. *)
Inductive grid_change (st st' : Page) : Prop :=
| change_none :
    requests st' = requests st ->
    images st' = images st ->
    resultsGrid st' = resultsGrid st ->
    next_node st' = next_node st ->
    grid_change st st'
| change_started : forall prompt,
    requests st' = requests st ++ [mkAttempt (next_node st) prompt] ->
    images st' = images st ->
    resultsGrid st' = [mkNode (next_node st) Placeholder] ->
    next_node st' = S (next_node st) ->
    grid_change st st'
| change_built : forall i att c,
    nth_error (requests st) i = Some att ->
    requests st' = remove_nth i (requests st) ->
    images st'
    = images st ++ [mkImageLoad (att_placeholder att)
                      (mkNode (next_node st) (ImageTile c))] ->
    resultsGrid st' = resultsGrid st ->
    next_node st' = S (next_node st) ->
    grid_change st st'
| change_failed : forall i att msg,
    nth_error (requests st) i = Some att ->
    requests st' = remove_nth i (requests st) ->
    images st' = images st ->
    rendered (att_placeholder att) (mkNode (next_node st) (ErrorTile msg))
      (resultsGrid st) (resultsGrid st') ->
    next_node st <= next_node st' ->
    grid_change st st'
| change_loaded : forall i il,
    nth_error (images st) i = Some il ->
    requests st' = requests st ->
    images st' = remove_nth i (images st) ->
    rendered (il_placeholder il) (il_container il)
      (resultsGrid st) (resultsGrid st') ->
    next_node st' = next_node st ->
    grid_change st st'
| change_load_failed : forall i il msg,
    nth_error (images st) i = Some il ->
    requests st' = requests st ->
    images st' = remove_nth i (images st) ->
    rendered (il_placeholder il) (mkNode (next_node st) (ErrorTile msg))
      (resultsGrid st) (resultsGrid st') ->
    next_node st <= next_node st' ->
    grid_change st st'.

(* ================================================================== *)
(** ** Sample inputs and runs *)
(* ================================================================== *)

(** Modelled from the spec: the markup of the page is not among the
    sources.  Uploading is what enables the generate action, so the
    button starts disabled; the preview and the loading indicator start
    hidden and the results grid empty.  Used for concrete runs only: the
    general statements hold from every page that satisfies
    [script_start]. *)
Definition fresh_page : Page :=
  mkPage None
    (mkUploadView None true false false)
    (mkControls true false false false false)
    (mkSelection "standing" "a smile" "in a suit" "from the front")
    true EmptyString [] 0 [] [] [] [].

(** The page a run leaves when started on [fresh_page]. *)
Definition page_after (evs : list Event) : Page :=
  match run evs fresh_page with
  | Some st => st
  | None => fresh_page
  end.

(** A small image, an image file without content, a file that is not an
    image. *)
Definition sample_png : File := mkFile "image/png" [x89; x50; x4e; x47]%byte.

Definition empty_png : File := mkFile "image/png" [].

Definition sample_pdf : File := mkFile "application/pdf" [x25; x50; x44; x46]%byte.

(** A selection whose pose text also occurs in the fixed template. *)
Definition subject_selection : Selection :=
  mkSelection "the subject" "a smile" "in a suit" "from above".

(** Responses: an image after a text part, text only, and one without
    candidates, as for a blocked prompt. *)
Definition png_blob : Blob := mkBlob (Some "AAAA") (Some "image/png").

Definition png_response : Response :=
  mkResponse
    (Some [mkCandidate
             (Some (mkContent
                      (Some [mkPart None (Some "Here it is.");
                             mkPart (Some png_blob) None])))]).

Definition text_only_response : Response :=
  mkResponse
    (Some [mkCandidate (Some (mkContent (Some [mkPart None (Some "I cannot do that.")])))]).

Definition blocked_response : Response := mkResponse None.

(** The page after [sample_png] has been uploaded to [fresh_page]. *)
Definition uploaded_page : Page :=
  page_after [FileInputChange (Some [sample_png]); ReaderLoads 0].

(** One attempt, unraced, up to the pending service call. *)
Definition single_attempt : list Event :=
  [ FileInputChange (Some [sample_png]); ReaderLoads 0; GenerateClick ].

(** One attempt that ends in a render failure. *)
Definition render_failure_run : list Event :=
  [ FileInputChange (Some [sample_png]); ReaderLoads 0; GenerateClick;
    ServiceSettles 0 (Fulfilled png_response); ImageFails 0 ].

(** Upload, generate, upload again while the first call is in flight
    (the reader re-enables the generate button), generate again: the
    second attempt has cleared the grid while the first is pending. *)
Definition overlapping_attempts : list Event :=
  [ FileInputChange (Some [sample_png]); ReaderLoads 0; GenerateClick;
    FileInputChange (Some [sample_png]); ReaderLoads 0; GenerateClick ].

(** The service call succeeds, and the user generates again before the
    returned image has loaded. *)
Definition regenerate_before_load : list Event :=
  [ FileInputChange (Some [sample_png]); ReaderLoads 0; GenerateClick;
    ServiceSettles 0 (Fulfilled png_response); GenerateClick ].

(** The image of the sample attempt, pending its load event. *)
Definition sample_image_load : ImageLoad :=
  mkImageLoad 0
    (mkNode 1
       (ImageTile
          (result_container "data:image/png;base64,AAAA"
             "standing, with a smile, in a suit, captured from the front"))).

(* ================================================================== *)
(** ** Notions for the further properties *)
(* ================================================================== *)

(** The characters a sanitised prompt is made of. *)
Definition filename_char (c : ascii) : bool :=
  Js.is_lower c || Js.is_digit c || Ascii.eqb c "_"%char.

(** The branch a settlement selects; it depends neither on the prompt
    nor on the page. *)
Definition settled_outcome (s : Settled) : Outcome :=
  match generateImage_try s with
  | inr resultSrc => outcome (Return resultSrc)
  | inl e => outcome (Throw e)
  end.

(** The data URI that the scan builds from a blob. *)
Definition data_uri (b : Blob) : string :=
  ("data:" ++ Js.interpolate (blob_mimeType b) ++ ";base64,"
   ++ Js.interpolate (blob_data b))%string.

Definition all_disabled : Controls := mkControls true true true true true.

(** The two validation messages. *)
Definition validation_alert (e : Effect) : Prop :=
  match e with
  | Alert msg =>
      msg = "Please select an image file." \/ msg = "Please upload an image first."
  | _ => True
  end.

(** Events that run the click handler, its continuation or an image
    handler. *)
Definition touches_grid (e : Event) : bool :=
  match e with
  | GenerateClick | ServiceSettles _ _ | ImageLoads _ | ImageFails _ => true
  | _ => false
  end.

(** Selecting an image file, letting its reader load, generating. *)
Definition upload_and_generate (file : File) (st : Page) : list Event :=
  [ FileInputChange (Some [file]); ReaderLoads (length (readers st)); GenerateClick ].


(** A part whose inline data has neither [data] nor [mimeType], and a
    response whose second candidate alone carries an image. *)
Definition bare_blob : Blob := mkBlob None None.

Definition image_in_second_candidate : Response :=
  mkResponse
    (Some [mkCandidate (Some (mkContent (Some [mkPart None (Some "Sorry.")])));
           mkCandidate (Some (mkContent (Some [mkPart (Some png_blob) None])))]).

(** Effects other than the upload-first alert. *)
Definition not_upload_first (e : Effect) : Prop :=
  match e with
  | Alert msg => msg = "Please select an image file."
  | _ => True
  end.

(** Events that can enable a control. *)
Definition may_enable (e : Event) : bool :=
  is_reader_load e || is_settlement e.

(** The page after an attempt that failed for lack of an image part. *)
Definition failed_attempt : list Event :=
  single_attempt ++ [ServiceSettles 0 (Fulfilled text_only_response)].

(** When no service call is pending the page is ready for the next
    attempt: the selects are enabled, the loading indicator is hidden,
    and with an upload stored the generate button is enabled. *)
Definition idle_ready (st : Page) : Prop :=
  requests st = [] ->
  poseSelect_disabled (controls st) = false /\
  expressionSelect_disabled (controls st) = false /\
  styleSelect_disabled (controls st) = false /\
  cameraAngleSelect_disabled (controls st) = false /\
  loadingIndicator_hidden st = true /\
  (uploadedFile st <> None -> generateBtn_disabled (controls st) = false).

(* ================================================================== *)
(** * Properties *)
(* ================================================================== *)

(** ** Strings *)

Section StringFacts.

Lemma prefix_refl_app (v rest : string) : String.prefix v (v ++ rest) = true.
Proof.
  induction v as [|c v IH]; simpl.
  - destruct rest; reflexivity.
  - destruct (ascii_dec c c) as [_|ne]; [exact IH | exfalso; apply ne; reflexivity].
Qed.

Lemma occurrences_here (v s : string) :
  String.prefix v s = true -> 1 <= Js.occurrences v s.
Proof. intros H. destruct s; cbn [Js.occurrences]; rewrite H; lia. Qed.

Lemma occurrences_middle (v before rest : string) :
  1 <= Js.occurrences v (before ++ v ++ rest).
Proof.
  induction before as [|c before IH].
  - change (1 <= Js.occurrences v (v ++ rest)).
    apply occurrences_here, prefix_refl_app.
  - cbn [String.append Js.occurrences].
    destruct (String.prefix v (String c (before ++ v ++ rest))); lia.
Qed.

Lemma append_assoc (a b c : string) : ((a ++ b) ++ c = a ++ b ++ c)%string.
Proof. induction a as [|x a IH]; simpl; [reflexivity | now rewrite IH]. Qed.

Lemma length_append (a b : string) :
  String.length (a ++ b) = String.length a + String.length b.
Proof. induction a as [|x a IH]; simpl; [reflexivity | now rewrite IH]. Qed.

Lemma substring_prefix (b c : string) :
  String.substring 0 (String.length b) (b ++ c) = b.
Proof.
  induction b as [|x b IH]; simpl.
  - destruct c; reflexivity.
  - now rewrite IH.
Qed.

Lemma substring_skip (a s : string) (m : nat) :
  String.substring (String.length a) m (a ++ s) = String.substring 0 m s.
Proof. induction a as [|x a IH]; simpl; [reflexivity | exact IH]. Qed.

Lemma substring_middle (a b c : string) :
  String.substring (String.length a) (String.length b) (a ++ b ++ c) = b.
Proof. now rewrite substring_skip, substring_prefix. Qed.

End StringFacts.

(** ** Prompt composer *)

Lemma slot (a v c whole : string) (off : nat) :
  whole = (a ++ v ++ c)%string -> off = String.length a ->
  String.substring off (String.length v) whole = v.
Proof. intros -> ->. apply substring_middle. Qed.

Lemma combinedPrompt_clauses (sel : Selection) :
  combinedPrompt sel = String.concat ", " (clauses sel).
Proof.
  unfold combinedPrompt, clauses. cbn [String.concat].
  rewrite !append_assoc. reflexivity.
Qed.

Ltac slot_at before after :=
  apply slot with (a := before) (c := after);
  [ unfold textPart, combinedPrompt; rewrite !append_assoc; reflexivity
  | unfold cameraAngle_offset, style_offset, expression_offset, pose_offset;
    rewrite ?length_append; simpl; lia ].

Lemma pose_slot (sel : Selection) :
  String.substring (pose_offset sel) (String.length (poseSelect_value sel))
    (textPart (combinedPrompt sel)) = poseSelect_value sel.
Proof.
  slot_at instruction_head
    (", with " ++ expressionSelect_value sel ++ ", " ++ styleSelect_value sel
     ++ ", captured " ++ cameraAngleSelect_value sel ++ instruction_tail)%string.
Qed.

Lemma expression_slot (sel : Selection) :
  String.substring (expression_offset sel)
    (String.length (expressionSelect_value sel))
    (textPart (combinedPrompt sel)) = expressionSelect_value sel.
Proof.
  slot_at (instruction_head ++ poseSelect_value sel ++ ", with ")%string
    (", " ++ styleSelect_value sel ++ ", captured "
     ++ cameraAngleSelect_value sel ++ instruction_tail)%string.
Qed.

Lemma style_slot (sel : Selection) :
  String.substring (style_offset sel) (String.length (styleSelect_value sel))
    (textPart (combinedPrompt sel)) = styleSelect_value sel.
Proof.
  slot_at (instruction_head ++ poseSelect_value sel ++ ", with "
           ++ expressionSelect_value sel ++ ", ")%string
    (", captured " ++ cameraAngleSelect_value sel ++ instruction_tail)%string.
Qed.

Lemma cameraAngle_slot (sel : Selection) :
  String.substring (cameraAngle_offset sel)
    (String.length (cameraAngleSelect_value sel))
    (textPart (combinedPrompt sel)) = cameraAngleSelect_value sel.
Proof.
  slot_at (instruction_head ++ poseSelect_value sel ++ ", with "
           ++ expressionSelect_value sel ++ ", " ++ styleSelect_value sel
           ++ ", captured ")%string
    instruction_tail.
Qed.

Lemma occurs_at (a v c whole : string) :
  whole = (a ++ v ++ c)%string -> 1 <= Js.occurrences v whole.
Proof. intros ->. apply occurrences_middle. Qed.

Ltac occurs_between before after :=
  apply occurs_at with (a := before) (c := after);
  unfold textPart, combinedPrompt, instruction_tail;
  rewrite ?append_assoc; reflexivity.

(** C1, as stated, fails: with the pose option "the subject" the
    instruction holds the pose text three times, twice in the fixed
    template around the interpolated value, not exactly once. *)
Lemma pose_text_occurs_three_times :
  Js.occurrences (poseSelect_value subject_selection)
    (textPart (combinedPrompt subject_selection)) = 3 /\
  Js.occurrences (poseSelect_value subject_selection)
    (textPart (combinedPrompt subject_selection)) <> 1.
Proof. split; [vm_compute; reflexivity | vm_compute; discriminate]. Qed.

(** C1, amended: for every selection the combined prompt is the four
    clauses (pose, "with " expression, style, "captured " camera angle)
    joined by ", ", and the instruction is the fixed template with that
    prompt embedded verbatim between its head and its tail, the tail
    stating the two constraints.  Each value is interpolated at one slot,
    the slots come in the order pose, expression, style, camera angle
    without overlap, so each value occurs at least once in the output. *)
Theorem prompt_embeds_selection (sel : Selection) :
  let out := textPart (combinedPrompt sel) in
  combinedPrompt sel = String.concat ", " (clauses sel) /\
  out = (instruction_head ++ combinedPrompt sel ++ instruction_tail)%string /\
  1 <= Js.occurrences
         "keep the subject's face and the original background unchanged" out /\
  (String.substring (pose_offset sel)
     (String.length (poseSelect_value sel)) out = poseSelect_value sel /\
   String.substring (expression_offset sel)
     (String.length (expressionSelect_value sel)) out = expressionSelect_value sel /\
   String.substring (style_offset sel)
     (String.length (styleSelect_value sel)) out = styleSelect_value sel /\
   String.substring (cameraAngle_offset sel)
     (String.length (cameraAngleSelect_value sel)) out
   = cameraAngleSelect_value sel) /\
  (pose_offset sel + String.length (poseSelect_value sel) < expression_offset sel /\
   expression_offset sel + String.length (expressionSelect_value sel)
   < style_offset sel /\
   style_offset sel + String.length (styleSelect_value sel)
   < cameraAngle_offset sel) /\
  (1 <= Js.occurrences (poseSelect_value sel) out /\
   1 <= Js.occurrences (expressionSelect_value sel) out /\
   1 <= Js.occurrences (styleSelect_value sel) out /\
   1 <= Js.occurrences (cameraAngleSelect_value sel) out).
Proof.
  cbv zeta. split; [apply combinedPrompt_clauses|].
  split; [reflexivity|].
  split.
  { occurs_between
      (instruction_head ++ combinedPrompt sel ++ ". It is critical to ")%string
      (". Only alter the body's pose and expression.")%string. }
  split.
  { repeat split.
    - apply pose_slot.
    - apply expression_slot.
    - apply style_slot.
    - apply cameraAngle_slot. }
  split.
  { unfold cameraAngle_offset, style_offset, expression_offset. simpl. lia. }
  repeat split.
  - occurs_between instruction_head
      (", with " ++ expressionSelect_value sel ++ ", " ++ styleSelect_value sel
       ++ ", captured " ++ cameraAngleSelect_value sel ++ instruction_tail)%string.
  - occurs_between (instruction_head ++ poseSelect_value sel ++ ", with ")%string
      (", " ++ styleSelect_value sel ++ ", captured "
       ++ cameraAngleSelect_value sel ++ instruction_tail)%string.
  - occurs_between
      (instruction_head ++ poseSelect_value sel ++ ", with "
       ++ expressionSelect_value sel ++ ", ")%string
      (", captured " ++ cameraAngleSelect_value sel ++ instruction_tail)%string.
  - occurs_between
      (instruction_head ++ poseSelect_value sel ++ ", with "
       ++ expressionSelect_value sel ++ ", " ++ styleSelect_value sel
       ++ ", captured ")%string
      instruction_tail.
Qed.

(** ** Filename sanitisation *)

Lemma sanitize_unit (c : ascii) :
  Js.toLowerCase_unit (if Js.class_a_z_0_9_i c then c else "_"%char)
  = (if alphanumeric c then lower_cased c else "_"%char).
Proof.
  destruct c as [b0 b1 b2 b3 b4 b5 b6 b7].
  destruct b0, b1, b2, b3, b4, b5, b6, b7; vm_compute; reflexivity.
Qed.

Lemma cleanPrompt_spec (prompt : string) :
  cleanPrompt prompt = spec_sanitize prompt.
Proof.
  unfold cleanPrompt.
  induction prompt as [|c rest IH]; simpl; [reflexivity|].
  now rewrite sanitize_unit, IH.
Qed.

Lemma cleanPrompt_length (prompt : string) :
  String.length (cleanPrompt prompt) = String.length prompt.
Proof.
  rewrite cleanPrompt_spec.
  induction prompt as [|c rest IH]; simpl; [reflexivity | now rewrite IH].
Qed.

(** ** Scanning the response *)

Lemma first_inline_found (ps : list Part) (b : Blob) :
  first_inline_part ps b ->
  first_inline ps
  = Some ("data:" ++ Js.interpolate (blob_mimeType b) ++ ";base64,"
          ++ Js.interpolate (blob_data b))%string.
Proof.
  induction 1 as [p rest b H | p rest b H _ IH]; simpl; rewrite H.
  - reflexivity.
  - exact IH.
Qed.

Lemma first_inline_absent (ps : list Part) :
  no_inline ps -> first_inline ps = None.
Proof.
  induction 1 as [|p rest H _ IH]; simpl; [reflexivity|].
  now rewrite H.
Qed.

Lemma first_inline_truthy (ps : list Part) (src : option string) :
  first_inline ps = src -> src <> None -> Js.truthy src = true.
Proof.
  intros <- Hne. induction ps as [|p rest IH]; simpl in *.
  - now destruct Hne.
  - destruct (inlineData p); [reflexivity | now apply IH].
Qed.

(** ** The click handler, branch by branch *)

Lemma click_without_upload (st : Page) :
  uploadedFile st = None -> click st = alert "Please upload an image first." st.
Proof. intros H. unfold click. now rewrite H. Qed.

Lemma click_with_upload (st : Page) (up : UploadedFile) :
  uploadedFile st = Some up ->
  click st =
  mkPage (Some up) (view st) (mkControls true true true true true)
    (selection st) false "Generating image..."
    [mkNode (next_node st) Placeholder] (S (next_node st)) (readers st)
    (requests st ++ [mkAttempt (next_node st) (combinedPrompt (selection st))])
    (images st)
    (GenerateContent (generateImage_request up (combinedPrompt (selection st)))
       :: LoadingHidden false :: ControlsDisabled true :: trace st).
Proof.
  intros H. destruct st; simpl in H; subst. reflexivity.
Qed.

Lemma click_resume_succeeded (att : Attempt) (c : Completion) (src : string) (st : Page) :
  outcome c = Succeeded src ->
  click_resume att c st =
  mkPage (uploadedFile st) (view st) all_enabled (selection st) true
    (loadingMessage st) (resultsGrid st) (S (next_node st)) (readers st)
    (requests st)
    (images st ++
       [mkImageLoad (att_placeholder att)
          (mkNode (next_node st) (ImageTile (result_container src (att_prompt att))))])
    (ControlsDisabled false :: LoadingHidden true :: trace st).
Proof. intros H. unfold click_resume. rewrite H. reflexivity. Qed.

Lemma replace_with_error_present (ph : nat) (msg : string) (st : Page) :
  contains (resultsGrid st) ph = true ->
  replace_with_error ph msg st =
  mkPage (uploadedFile st) (view st) (controls st) (selection st)
    (loadingIndicator_hidden st) (loadingMessage st)
    (replaceChild (mkNode (next_node st) (ErrorTile msg)) ph (resultsGrid st))
    (S (next_node st)) (readers st) (requests st) (images st) (trace st).
Proof. intros H. unfold replace_with_error. rewrite H. reflexivity. Qed.

Lemma replace_with_error_absent (ph : nat) (msg : string) (st : Page) :
  contains (resultsGrid st) ph = false -> replace_with_error ph msg st = st.
Proof. intros H. unfold replace_with_error. now rewrite H. Qed.

Lemma click_resume_failed (att : Attempt) (c : Completion) (msg : string) (st : Page) :
  outcome c = Failed msg ->
  click_resume att c st =
  setControlsDisabled false
    (loadingIndicator_hide (replace_with_error (att_placeholder att) msg st)).
Proof. intros H. unfold click_resume. now rewrite H. Qed.

(** ** The results grid *)

Lemma replaceChild_In (new : Node) (old : nat) (g : list Node) :
  contains g old = true -> In new (replaceChild new old g).
Proof.
  induction g as [|n g IH]; simpl; [discriminate|].
  destruct (Nat.eqb (node_id n) old); simpl.
  - intros _. now left.
  - intros H. right. now apply IH.
Qed.

Lemma replaceChild_swapped (id : nat) (t : Tile) (old : nat) (g : list Node) :
  contains g old = true ->
  swapped old t g (replaceChild (mkNode id t) old g).
Proof.
  induction g as [|n g IH]; simpl; [discriminate|].
  destruct (Nat.eqb (node_id n) old) eqn:E; simpl.
  - intros _. apply Nat.eqb_eq in E.
    apply (swapped_at old t [] n g id E). reflexivity.
  - intros H. destruct (IH H) as [before m after id' Hm Hb].
    apply (swapped_at old t (n :: before) m after id' Hm).
    simpl. now rewrite E.
Qed.

Lemma replaceChild_absent (new : Node) (old : nat) (g : list Node) :
  contains g old = false -> replaceChild new old g = g.
Proof.
  induction g as [|n g IH]; simpl; [reflexivity|].
  destruct (Nat.eqb (node_id n) old); simpl; [discriminate|].
  intros H. now rewrite IH.
Qed.

(** ** Settling the service call *)

Lemma settle_scanned (att : Attempt) (r : Response) (ps : list Part) (st : Page) :
  response_parts r = inr ps ->
  settle att (Fulfilled r) st = click_resume att (Return (first_inline ps)) st.
Proof. intros H. unfold settle, generateImage_resume. simpl. now rewrite H. Qed.

Lemma settle_thrown (att : Attempt) (s : Settled) (e : JsError) (st : Page) :
  generateImage_try s = inl e ->
  settle att s st
  = click_resume att (Throw e)
      (emit (ConsoleError (api_error_message (att_prompt att)) e) st).
Proof. intros H. unfold settle, generateImage_resume. now rewrite H. Qed.

Lemma outcome_found (ps : list Part) (b : Blob) :
  first_inline_part ps b ->
  outcome (Return (first_inline ps))
  = Succeeded ("data:" ++ Js.interpolate (blob_mimeType b) ++ ";base64,"
               ++ Js.interpolate (blob_data b))%string.
Proof. intros H. now rewrite (first_inline_found ps b H). Qed.

(** C2: when the first inline part of the response is
    [{data: "AAAA", mimeType: "image/png"}], the tile built for the
    attempt has image source (and link target) "data:image/png;base64,AAAA"
    and download name "generated_" + the sanitised combined prompt +
    ".png", the sanitisation being the one the specification words:
    non-alphanumeric characters become "_", letters are lower-cased.  The
    prompt is the one composed from the selection at the click, and once
    the image has loaded with the placeholder still in the grid, that
    tile is in the grid. *)
Theorem png_response_tile
  (st0 : Page) (up : UploadedFile) (r : Response) (ps : list Part) :
  uploadedFile st0 = Some up ->
  response_parts r = inr ps ->
  first_inline_part ps png_blob ->
  let att := mkAttempt (next_node st0) (combinedPrompt (selection st0)) in
  requests (click st0) = requests st0 ++ [att] /\
  forall st : Page,
  exists c : ResultContainer,
    let il := mkImageLoad (att_placeholder att) (mkNode (next_node st) (ImageTile c)) in
    images (settle att (Fulfilled r) st) = images st ++ [il] /\
    img_src c = "data:image/png;base64,AAAA" /\
    download_href c = "data:image/png;base64,AAAA" /\
    download_name c
    = ("generated_" ++ spec_sanitize (combinedPrompt (selection st0)) ++ ".png")%string /\
    forall st1 : Page,
      contains (resultsGrid st1) (att_placeholder att) = true ->
      In (il_container il) (resultsGrid (img_onload il st1)).
Proof.
  intros Hup Hparts Hfirst att. split.
  - rewrite (click_with_upload st0 up Hup). reflexivity.
  - intros st.
    exists (result_container "data:image/png;base64,AAAA" (att_prompt att)).
    cbv zeta. split; [|split; [|split; [|split]]].
    + rewrite (settle_scanned att r ps st Hparts).
      rewrite (click_resume_succeeded att _ _ st (outcome_found ps png_blob Hfirst)).
      reflexivity.
    + reflexivity.
    + reflexivity.
    + unfold result_container, download_filename, att.
      cbn [download_name att_prompt]. now rewrite cleanPrompt_spec.
    + intros st1 Hin. unfold img_onload. cbn [il_placeholder il_container].
      rewrite Hin. cbn [resultsGrid set_resultsGrid].
      now apply replaceChild_In.
Qed.

Lemma png_response_tile_witness :
  exists c : ResultContainer,
    images (settle (mkAttempt 0 "standing, with a smile, in a suit, captured from the front")
              (Fulfilled png_response) (page_after single_attempt))
    = [mkImageLoad 0 (mkNode 1 (ImageTile c))] /\
    img_src c = "data:image/png;base64,AAAA" /\
    download_href c = "data:image/png;base64,AAAA" /\
    download_name c
    = "generated_standing__with_a_smile__in_a_suit__captured_from_the_front.png".
Proof.
  assert (Hfirst : first_inline_part
                     [mkPart None (Some "Here it is."); mkPart (Some png_blob) None]
                     png_blob)
    by (apply first_later; [reflexivity|]; apply first_here; reflexivity).
  destruct (png_response_tile uploaded_page (upload_of sample_png) png_response
              [mkPart None (Some "Here it is."); mkPart (Some png_blob) None]
              eq_refl eq_refl Hfirst) as [_ Htile].
  destruct (Htile (page_after single_attempt)) as (c & Himg & Hsrc & Hhref & Hname & _).
  exists c. split; [exact Himg|]. split; [exact Hsrc|]. split; [exact Hhref|].
  rewrite Hname. vm_compute. reflexivity.
Defined.

(** ** Validation failures *)

(** C3: a generate trigger with no uploaded image only raises the alert
    "Please upload an image first.": no service call is issued or left
    pending, the results grid and every other part of the page stay as
    they were. *)
Theorem generate_without_upload (st : Page) :
  uploadedFile st = None ->
  click st = alert "Please upload an image first." st /\
  trace (click st) = Alert "Please upload an image first." :: trace st /\
  filter is_service_call (trace (click st)) = filter is_service_call (trace st) /\
  requests (click st) = requests st /\
  images (click st) = images st /\
  resultsGrid (click st) = resultsGrid st /\
  next_node (click st) = next_node st /\
  controls (click st) = controls st /\
  loadingIndicator_hidden (click st) = loadingIndicator_hidden st /\
  loadingMessage (click st) = loadingMessage st /\
  uploadedFile (click st) = None.
Proof.
  intros H. rewrite (click_without_upload st H).
  repeat split; try reflexivity. exact H.
Qed.

Lemma generate_without_upload_witness :
  click fresh_page = alert "Please upload an image first." fresh_page /\
  trace (click fresh_page) = [Alert "Please upload an image first."] /\
  filter is_service_call (trace (click fresh_page)) = [] /\
  requests (click fresh_page) = [] /\
  images (click fresh_page) = [] /\
  resultsGrid (click fresh_page) = [] /\
  next_node (click fresh_page) = 0 /\
  controls (click fresh_page) = controls fresh_page /\
  loadingIndicator_hidden (click fresh_page) = true /\
  loadingMessage (click fresh_page) = EmptyString /\
  uploadedFile (click fresh_page) = None.
Proof. apply (generate_without_upload fresh_page). reflexivity. Defined.

(** C4: a file whose type does not start with "image/" only raises the
    alert "Please select an image file.": no reader is started, and the
    stored upload, the preview surface and the controls (the generate
    button among them) stay as they were, whether the file comes from
    the file input or from a drop. *)
Theorem non_image_file_rejected (file : File) (st : Page) :
  Js.startsWith (file_type file) "image/" = false ->
  handleFile file st = alert "Please select an image file." st /\
  trace (handleFile file st) = Alert "Please select an image file." :: trace st /\
  readers (handleFile file st) = readers st /\
  uploadedFile (handleFile file st) = uploadedFile st /\
  view (handleFile file st) = view st /\
  controls (handleFile file st) = controls st /\
  (forall rest,
      handleFileSelect (Some (file :: rest)) st = handleFile file st) /\
  (forall rest,
      let st' := drop (Some (file :: rest)) st in
      uploadedFile st' = uploadedFile st /\
      readers st' = readers st /\
      controls st' = controls st /\
      imagePreview_src (view st') = imagePreview_src (view st) /\
      imagePreview_hidden (view st') = imagePreview_hidden (view st) /\
      uploadPlaceholder_hidden (view st') = uploadPlaceholder_hidden (view st)).
Proof.
  intros H.
  assert (E : forall s, handleFile file s = alert "Please select an image file." s).
  { intros s. unfold handleFile. now rewrite H. }
  rewrite E. do 6 (split; [reflexivity|]). split.
  - intros rest. simpl. now rewrite E.
  - intros rest. unfold drop. rewrite E. repeat split.
Qed.

Lemma non_image_file_rejected_witness :
  handleFile sample_pdf uploaded_page
  = alert "Please select an image file." uploaded_page /\
  uploadedFile (handleFile sample_pdf uploaded_page)
  = Some (mkUploadedFile (Some "iVBORw==") "image/png").
Proof.
  split.
  - apply (non_image_file_rejected sample_pdf uploaded_page). reflexivity.
  - destruct (non_image_file_rejected sample_pdf uploaded_page eq_refl)
      as (_ & _ & _ & -> & _).
    reflexivity.
Defined.

(** ** What each handler leaves alone *)

Ltac branches :=
  repeat match goal with
         | |- context [match outcome ?c with _ => _ end] => destruct (outcome c)
         | |- context [if contains ?g ?n then _ else _] => destruct (contains g n)
         | |- context [match generateImage_try ?s with _ => _ end] =>
             destruct (generateImage_try s)
         end.

Lemma click_resume_trace (att : Attempt) (c : Completion) (st : Page) :
  trace (click_resume att c st)
  = ControlsDisabled false :: LoadingHidden true :: trace st.
Proof. unfold click_resume, replace_with_error. branches; reflexivity. Qed.

Lemma click_resume_frame (att : Attempt) (c : Completion) (st : Page) :
  controls (click_resume att c st) = all_enabled /\
  loadingIndicator_hidden (click_resume att c st) = true /\
  uploadedFile (click_resume att c st) = uploadedFile st /\
  view (click_resume att c st) = view st /\
  selection (click_resume att c st) = selection st /\
  readers (click_resume att c st) = readers st /\
  requests (click_resume att c st) = requests st.
Proof.
  unfold click_resume, replace_with_error. branches; repeat split; reflexivity.
Qed.

Lemma settle_trace (att : Attempt) (s : Settled) (st : Page) :
  exists logged,
    trace (settle att s st)
    = ControlsDisabled false :: LoadingHidden true :: logged ++ trace st /\
    hides logged = 0 /\ enables logged = 0 /\ calls logged = 0 /\
    filter is_alert logged = [].
Proof.
  unfold settle, generateImage_resume.
  destruct (generateImage_try s) as [e|v]; rewrite click_resume_trace.
  - exists [ConsoleError (api_error_message (att_prompt att)) e].
    repeat split; reflexivity.
  - exists []. repeat split; reflexivity.
Qed.

Lemma settle_frame (att : Attempt) (s : Settled) (st : Page) :
  controls (settle att s st) = all_enabled /\
  loadingIndicator_hidden (settle att s st) = true /\
  uploadedFile (settle att s st) = uploadedFile st /\
  view (settle att s st) = view st /\
  selection (settle att s st) = selection st /\
  readers (settle att s st) = readers st /\
  requests (settle att s st) = requests st.
Proof.
  unfold settle, generateImage_resume.
  destruct (generateImage_try s) as [e|v].
  - exact (click_resume_frame att (Throw e)
             (emit (ConsoleError (api_error_message (att_prompt att)) e) st)).
  - apply click_resume_frame.
Qed.

Lemma img_onload_frame (il : ImageLoad) (st : Page) :
  trace (img_onload il st) = trace st /\
  controls (img_onload il st) = controls st /\
  loadingIndicator_hidden (img_onload il st) = loadingIndicator_hidden st /\
  uploadedFile (img_onload il st) = uploadedFile st /\
  readers (img_onload il st) = readers st /\
  requests (img_onload il st) = requests st /\
  images (img_onload il st) = images st.
Proof. unfold img_onload. branches; repeat split; reflexivity. Qed.

Lemma img_onerror_frame (il : ImageLoad) (st : Page) :
  trace (img_onerror il st) = trace st /\
  controls (img_onerror il st) = controls st /\
  loadingIndicator_hidden (img_onerror il st) = loadingIndicator_hidden st /\
  uploadedFile (img_onerror il st) = uploadedFile st /\
  readers (img_onerror il st) = readers st /\
  requests (img_onerror il st) = requests st /\
  images (img_onerror il st) = images st.
Proof.
  unfold img_onerror, replace_with_error. branches; repeat split; reflexivity.
Qed.

Lemma handleFile_frame (file : File) (st : Page) :
  uploadedFile (handleFile file st) = uploadedFile st /\
  requests (handleFile file st) = requests st /\
  images (handleFile file st) = images st /\
  resultsGrid (handleFile file st) = resultsGrid st /\
  controls (handleFile file st) = controls st /\
  hides (trace (handleFile file st)) = hides (trace st) /\
  enables (trace (handleFile file st)) = enables (trace st) /\
  calls (trace (handleFile file st)) = calls (trace st).
Proof.
  unfold handleFile.
  destruct (negb (Js.startsWith (file_type file) "image/"));
    repeat split; reflexivity.
Qed.

Lemma length_remove_nth {A : Type} (l : list A) (i : nat) (x : A) :
  nth_error l i = Some x -> S (length (remove_nth i l)) = length l.
Proof.
  revert i. induction l as [|y l IH]; intros [|i]; simpl; try discriminate.
  - reflexivity.
  - intros H. now rewrite (IH i H).
Qed.

(** ** Accounting of cleanups along a run *)

Lemma hides_app (a b : list Effect) : hides (a ++ b) = hides a + hides b.
Proof. unfold hides. now rewrite filter_app, length_app. Qed.

Lemma enables_app (a b : list Effect) : enables (a ++ b) = enables a + enables b.
Proof. unfold enables. now rewrite filter_app, length_app. Qed.

Lemma calls_app (a b : list Effect) : calls (a ++ b) = calls a + calls b.
Proof. unfold calls. now rewrite filter_app, length_app. Qed.

Lemma settle_accounting (att : Attempt) (s : Settled) (st : Page) :
  hides (trace (settle att s st)) = S (hides (trace st)) /\
  enables (trace (settle att s st)) = S (enables (trace st)) /\
  calls (trace (settle att s st)) = calls (trace st).
Proof.
  destruct (settle_trace att s st) as (logged & -> & Hh & He & Hc & _).
  change (ControlsDisabled false :: LoadingHidden true :: logged ++ trace st)
    with ([ControlsDisabled false; LoadingHidden true] ++ logged ++ trace st).
  rewrite !hides_app, !enables_app, !calls_app, Hh, He, Hc. repeat split.
Qed.

Lemma click_accounting (st : Page) :
  hides (trace (click st)) = hides (trace st) /\
  enables (trace (click st)) = enables (trace st) /\
  calls (trace (click st)) + length (requests st)
  = calls (trace st) + length (requests (click st)).
Proof.
  destruct (uploadedFile st) as [up|] eqn:E.
  - rewrite (click_with_upload st up E). cbn [trace requests].
    rewrite length_app. unfold hides, enables, calls. simpl. repeat split; lia.
  - rewrite (click_without_upload st E). repeat split.
Qed.

Lemma step_accounting (e : Event) (st st' : Page) :
  step e st = Some st' ->
  let k := if is_settlement e then 1 else 0 in
  hides (trace st') = hides (trace st) + k /\
  enables (trace st') = enables (trace st) + k /\
  calls (trace st') + length (requests st)
  = calls (trace st) + length (requests st') + k.
Proof.
  destruct e as [| |files|files|i|w v| |i s|i|i]; simpl; intros H.
  - injection H as <-. simpl. repeat split; lia.
  - injection H as <-. simpl. repeat split; lia.
  - injection H as <-. unfold drop.
    destruct files as [[|file rest]|]; try (simpl; repeat split; lia).
    destruct (handleFile_frame file (set_dragover false st))
      as (_ & Hr & _ & _ & _ & Hh & He & Hc).
    rewrite Hh, He, Hc, Hr. simpl. repeat split; lia.
  - injection H as <-. unfold handleFileSelect.
    destruct files as [[|file rest]|]; try (simpl; repeat split; lia).
    destruct (handleFile_frame file st) as (_ & Hr & _ & _ & _ & Hh & He & Hc).
    rewrite Hh, He, Hc, Hr. repeat split; lia.
  - destruct (nth_error (readers st) i); [|discriminate].
    injection H as <-. simpl. repeat split; lia.
  - destruct (select_disabled w (controls st)); [discriminate|].
    injection H as <-. simpl. repeat split; lia.
  - destruct (generateBtn_disabled (controls st)); [discriminate|].
    injection H as <-. destruct (click_accounting st) as (Hh & He & Hc).
    repeat split; lia.
  - destruct (nth_error (requests st) i) as [att|] eqn:E; [|discriminate].
    injection H as <-.
    destruct (settle_accounting att s (set_requests (remove_nth i (requests st)) st))
      as (Hh & He & Hc).
    destruct (settle_frame att s (set_requests (remove_nth i (requests st)) st))
      as (_ & _ & _ & _ & _ & _ & Hr).
    rewrite Hh, He, Hc, Hr. cbn [trace requests set_requests].
    pose proof (length_remove_nth _ _ _ E). repeat split; lia.
  - destruct (nth_error (images st) i) as [il|]; [|discriminate].
    injection H as <-.
    destruct (img_onload_frame il (set_images (remove_nth i (images st)) st))
      as (Ht & _ & _ & _ & _ & Hr & _).
    rewrite Ht, Hr. simpl. repeat split; lia.
  - destruct (nth_error (images st) i) as [il|]; [|discriminate].
    injection H as <-.
    destruct (img_onerror_frame il (set_images (remove_nth i (images st)) st))
      as (Ht & _ & _ & _ & _ & Hr & _).
    rewrite Ht, Hr. simpl. repeat split; lia.
Qed.

Lemma reachable_accounting (st : Page) :
  reachable st ->
  calls (trace st) = hides (trace st) + length (requests st) /\
  enables (trace st) = hides (trace st).
Proof.
  induction 1 as [st (_ & _ & Hr & _ & Ht) | st e st' _ [IH1 IH2] Hstep].
  - rewrite Hr, Ht. split; reflexivity.
  - destruct (step_accounting e st st' Hstep) as (Hh & He & Hc). lia.
Qed.

Lemma run_accounting (evs : list Event) :
  forall st st', run evs st = Some st' ->
  hides (trace st') = hides (trace st) + settlements evs /\
  enables (trace st') = enables (trace st) + settlements evs.
Proof.
  induction evs as [|e evs IH]; simpl; intros st st' H.
  - injection H as <-. unfold settlements. simpl. lia.
  - destruct (step e st) as [st1|] eqn:E; [|discriminate].
    destruct (IH st1 st' H) as [Hh He].
    destruct (step_accounting e st st1 E) as (Hh1 & He1 & _).
    unfold settlements in *. simpl.
    destruct (is_settlement e); simpl; lia.
Qed.

Lemma run_reachable (evs : list Event) :
  forall st st', reachable st -> run evs st = Some st' -> reachable st'.
Proof.
  induction evs as [|e evs IH]; simpl; intros st st' Hr H.
  - now injection H as <-.
  - destruct (step e st) as [st1|] eqn:E; [|discriminate].
    apply (IH st1 st'); [|exact H]. now apply reach_step with st e.
Qed.

Lemma fresh_page_start : script_start fresh_page.
Proof. repeat split. Qed.

(** C7: whatever way the service call settles (an image, no image, a
    malformed response, a rejection), the resumed handler hides the
    loading indicator once and re-enables the controls once, as its last
    two effects, and leaves the indicator hidden and all five controls
    enabled.  The image [onload]/[onerror] handlers (render success or
    failure) and the part of the handler before the [await] do no
    cleanup.  Along every run each settlement adds exactly one hide and
    one enable, and on every reachable page each issued service call is
    either still pending or has been cleaned up exactly once. *)
Theorem cleanup_exactly_once :
  (forall att s st,
      exists logged,
        trace (settle att s st)
        = ControlsDisabled false :: LoadingHidden true :: logged ++ trace st /\
        hides logged = 0 /\ enables logged = 0 /\
        hides (trace (settle att s st)) = S (hides (trace st)) /\
        enables (trace (settle att s st)) = S (enables (trace st)) /\
        loadingIndicator_hidden (settle att s st) = true /\
        controls (settle att s st) = all_enabled) /\
  (forall il st,
      trace (img_onload il st) = trace st /\
      controls (img_onload il st) = controls st /\
      loadingIndicator_hidden (img_onload il st) = loadingIndicator_hidden st) /\
  (forall il st,
      trace (img_onerror il st) = trace st /\
      controls (img_onerror il st) = controls st /\
      loadingIndicator_hidden (img_onerror il st) = loadingIndicator_hidden st) /\
  (forall st,
      hides (trace (click st)) = hides (trace st) /\
      enables (trace (click st)) = enables (trace st)) /\
  (forall evs st st',
      run evs st = Some st' ->
      hides (trace st') = hides (trace st) + settlements evs /\
      enables (trace st') = enables (trace st) + settlements evs) /\
  (forall st,
      reachable st ->
      calls (trace st) = hides (trace st) + length (requests st) /\
      enables (trace st) = hides (trace st)).
Proof.
  split; [|split; [|split; [|split; [|split]]]].
  - intros att s st.
    destruct (settle_trace att s st) as (logged & Ht & Hh & He & _).
    destruct (settle_accounting att s st) as (Hh' & He' & _).
    destruct (settle_frame att s st) as (Hc & Hl & _).
    exists logged. repeat split; assumption.
  - intros il st. destruct (img_onload_frame il st) as (Ht & Hc & Hl & _).
    repeat split; assumption.
  - intros il st. destruct (img_onerror_frame il st) as (Ht & Hc & Hl & _).
    repeat split; assumption.
  - intros st. destruct (click_accounting st) as (Hh & He & _). now split.
  - exact run_accounting.
  - exact reachable_accounting.
Qed.

Lemma cleanup_exactly_once_witness :
  run render_failure_run fresh_page = Some (page_after render_failure_run) /\
  hides (trace (page_after render_failure_run)) = 1 /\
  enables (trace (page_after render_failure_run)) = 1 /\
  calls (trace (page_after render_failure_run)) = 1 /\
  requests (page_after render_failure_run) = [] /\
  map node_tile (resultsGrid (page_after render_failure_run))
  = [ErrorTile "Failed to load image."].
Proof.
  assert (R : run render_failure_run fresh_page
              = Some (page_after render_failure_run))
    by (vm_compute; reflexivity).
  destruct cleanup_exactly_once as (_ & _ & _ & _ & Hrun & Hreach).
  destruct (Hrun render_failure_run fresh_page _ R) as [Hh He].
  destruct (Hreach (page_after render_failure_run)
              (run_reachable _ _ _ (reach_start _ fresh_page_start) R))
    as [Hc _].
  split; [exact R|].
  split; [rewrite Hh; vm_compute; reflexivity|].
  split; [rewrite He; vm_compute; reflexivity|].
  split; [rewrite Hc, Hh; vm_compute; reflexivity|].
  split; vm_compute; reflexivity.
Defined.

(** ** Renderings of an outcome *)

Lemma In_replaceChild (n new : Node) (old : nat) (g : list Node) :
  In n (replaceChild new old g) -> n = new \/ In n g.
Proof.
  induction g as [|m g IH]; simpl; [tauto|].
  destruct (Nat.eqb (node_id m) old); simpl.
  - intros [H|H]; [left; now symmetry | right; now right].
  - intros [H|H]; [right; now left|].
    destruct (IH H) as [E|E]; [now left | right; now right].
Qed.

Lemma replace_with_error_swap (ph : nat) (msg : string) (st : Page) :
  guarded_swap ph (ErrorTile msg) (resultsGrid st)
    (resultsGrid (replace_with_error ph msg st)).
Proof.
  split; intros H.
  - rewrite (replace_with_error_present ph msg st H). cbn [resultsGrid].
    now apply replaceChild_swapped.
  - now rewrite (replace_with_error_absent ph msg st H).
Qed.

Lemma img_onload_swap (il : ImageLoad) (st : Page) :
  guarded_swap (il_placeholder il) (node_tile (il_container il))
    (resultsGrid st) (resultsGrid (img_onload il st)).
Proof.
  unfold img_onload. split; intros H; rewrite H.
  - cbn [resultsGrid set_resultsGrid].
    destruct (il_container il) as [id t]. now apply replaceChild_swapped.
  - reflexivity.
Qed.

Lemma img_onerror_swap (il : ImageLoad) (st : Page) :
  guarded_swap (il_placeholder il) (ErrorTile "Failed to load image.")
    (resultsGrid st) (resultsGrid (img_onerror il st)).
Proof. apply replace_with_error_swap. Qed.

Lemma click_resume_failed_grid (att : Attempt) (c : Completion) (msg : string) (st : Page) :
  outcome c = Failed msg ->
  guarded_swap (att_placeholder att) (ErrorTile msg) (resultsGrid st)
    (resultsGrid (click_resume att c st)) /\
  images (click_resume att c st) = images st.
Proof.
  intros H. rewrite (click_resume_failed att c msg st H).
  cbn [resultsGrid images setControlsDisabled loadingIndicator_hide emit
       set_controls set_loadingIndicator_hidden].
  split; [apply replace_with_error_swap|].
  unfold replace_with_error. branches; reflexivity.
Qed.

Lemma click_resume_succeeded_grid (att : Attempt) (c : Completion) (src : string) (st : Page) :
  outcome c = Succeeded src ->
  resultsGrid (click_resume att c st) = resultsGrid st.
Proof. intros H. now rewrite (click_resume_succeeded att c src st H). Qed.

Lemma outcome_absent (ps : list Part) :
  no_inline ps -> outcome (Return (first_inline ps)) = Failed "Generation failed.".
Proof. intros H. now rewrite (first_inline_absent ps H). Qed.

Lemma visible_failed (att : Attempt) (c : Completion) (msg : string) (e : Effect) (st : Page) :
  outcome c = Failed msg ->
  visible (click_resume att c (emit e st))
  = visible (setControlsDisabled false
               (loadingIndicator_hide (replace_with_error (att_placeholder att) msg st))).
Proof.
  intros H. rewrite (click_resume_failed att c msg _ H).
  unfold visible, replace_with_error.
  cbn [resultsGrid emit]. destruct (contains (resultsGrid st) (att_placeholder att));
    reflexivity.
Qed.

(** ** Responses without an image *)

(** C5, as stated, fails in two ways.  When a later attempt has cleared
    the grid, the first attempt's response without an image part changes
    nothing: its placeholder is gone and no "Generation failed." tile
    appears.  And a response that has no candidates at all (so no part
    with inline data either) makes the scan throw, which ends in the
    "API error." tile. *)
Lemma no_image_part_without_failed_tile :
  (let evs := overlapping_attempts ++ [ServiceSettles 0 (Fulfilled text_only_response)] in
   run evs fresh_page = Some (page_after evs) /\
   nth_error (requests (page_after overlapping_attempts)) 0
   = Some (mkAttempt 0 "standing, with a smile, in a suit, captured from the front") /\
   (exists ps, response_parts text_only_response = inr ps /\ no_inline ps) /\
   resultsGrid (page_after evs) = [mkNode 1 Placeholder] /\
   ~ In (ErrorTile "Generation failed.") (map node_tile (resultsGrid (page_after evs)))) /\
  (let evs := single_attempt ++ [ServiceSettles 0 (Fulfilled blocked_response)] in
   run evs fresh_page = Some (page_after evs) /\
   candidates blocked_response = None /\
   map node_tile (resultsGrid (page_after evs)) = [ErrorTile "API error."] /\
   ~ In (ErrorTile "Generation failed.") (map node_tile (resultsGrid (page_after evs)))).
Proof.
  split; cbv zeta.
  - split; [vm_compute; reflexivity|].
    split; [vm_compute; reflexivity|].
    split.
    { exists [mkPart None (Some "I cannot do that.")].
      split; [reflexivity | repeat constructor]. }
    split; [vm_compute; reflexivity|].
    vm_compute. intros [H|[]]. discriminate.
  - split; [vm_compute; reflexivity|].
    split; [reflexivity|].
    split; [vm_compute; reflexivity|].
    vm_compute. intros [H|[]]. discriminate.
Qed.

(** C5, amended: for every response that exposes a part list
    ([candidates[0].content.parts]) in which no part carries inline
    data, [generateImage] returns null and the handler takes the
    "Generation failed." branch, never the success branch: no image tile
    is built, nothing is logged or alerted, and the attempt's placeholder
    is replaced by an error tile reading "Generation failed." if the grid
    still contains it; if it does not, the grid is left as it is. *)
Theorem no_image_part_fails
  (att : Attempt) (r : Response) (ps : list Part) (st : Page) :
  response_parts r = inr ps ->
  no_inline ps ->
  let st' := settle att (Fulfilled r) st in
  fst (generateImage_resume (att_prompt att) (Fulfilled r) st) = Return None /\
  outcome (Return None) = Failed "Generation failed." /\
  (forall src, outcome (Return None) <> Succeeded src) /\
  images st' = images st /\
  guarded_swap (att_placeholder att) (ErrorTile "Generation failed.")
    (resultsGrid st) (resultsGrid st') /\
  trace st' = ControlsDisabled false :: LoadingHidden true :: trace st.
Proof.
  intros Hparts Hnone st'.
  assert (Hout : outcome (Return (first_inline ps)) = Failed "Generation failed.")
    by now apply outcome_absent.
  assert (Est : st' = click_resume att (Return (first_inline ps)) st)
    by apply (settle_scanned att r ps st Hparts).
  destruct (click_resume_failed_grid att _ _ st Hout) as [Hswap Himg].
  split.
  { unfold generateImage_resume. simpl. rewrite Hparts.
    now rewrite (first_inline_absent ps Hnone). }
  split; [reflexivity|].
  split; [discriminate|].
  rewrite Est. split; [exact Himg|]. split; [exact Hswap|].
  apply click_resume_trace.
Qed.

Lemma no_image_part_fails_witness :
  let st := page_after single_attempt in
  let att := mkAttempt 0 "standing, with a smile, in a suit, captured from the front" in
  let st' := settle att (Fulfilled text_only_response) st in
  images st' = [] /\
  map node_tile (resultsGrid st') = [ErrorTile "Generation failed."].
Proof.
  cbv zeta.
  assert (Hnone : no_inline [mkPart None (Some "I cannot do that.")])
    by (repeat constructor).
  destruct (no_image_part_fails
              (mkAttempt 0 "standing, with a smile, in a suit, captured from the front")
              text_only_response [mkPart None (Some "I cannot do that.")]
              (page_after single_attempt) eq_refl Hnone)
    as (_ & _ & _ & Himg & _ & _).
  split; [rewrite Himg; vm_compute; reflexivity | vm_compute; reflexivity].
Defined.

(** ** Service failures *)

(** C6, as stated, fails: when a later attempt has cleared the grid, the
    rejection of the first attempt's call is logged but its placeholder
    is gone, so no "API error." tile replaces it and the grid keeps
    showing the later attempt's placeholder. *)
Lemma rejection_without_error_tile :
  let evs := overlapping_attempts ++ [ServiceSettles 0 (Rejected (ServiceError "503"))] in
  run evs fresh_page = Some (page_after evs) /\
  nth_error (requests (page_after overlapping_attempts)) 0
  = Some (mkAttempt 0 "standing, with a smile, in a suit, captured from the front") /\
  resultsGrid (page_after evs) = [mkNode 1 Placeholder] /\
  ~ In (ErrorTile "API error.") (map node_tile (resultsGrid (page_after evs))).
Proof.
  cbv zeta.
  split; [vm_compute; reflexivity|].
  split; [vm_compute; reflexivity|].
  split; [vm_compute; reflexivity|].
  vm_compute. intros [H|[]]. discriminate.
Qed.

(** C6, amended: whenever the service call rejects, or the scan of its
    response throws, the error is logged to the console with the prompt
    and rethrown, the handler takes the "API error." branch, builds no
    image tile and raises no alert, and the attempt's placeholder is
    replaced by an error tile reading "API error." if the grid still
    contains it; if it does not, the grid is left as it is.  What the
    page shows afterwards does not depend on the error: every such
    failure gives the same visible page. *)
Theorem service_failure_collapses
  (att : Attempt) (s : Settled) (e : JsError) (st : Page) :
  generateImage_try s = inl e ->
  let st' := settle att s st in
  (forall e0, generateImage_try (Rejected e0) = inl e0) /\
  fst (generateImage_resume (att_prompt att) s st) = Throw e /\
  outcome (Throw e) = Failed "API error." /\
  trace st'
  = ControlsDisabled false :: LoadingHidden true
    :: ConsoleError (api_error_message (att_prompt att)) e :: trace st /\
  filter is_alert (trace st') = filter is_alert (trace st) /\
  images st' = images st /\
  guarded_swap (att_placeholder att) (ErrorTile "API error.")
    (resultsGrid st) (resultsGrid st') /\
  (forall s2 e2,
      generateImage_try s2 = inl e2 ->
      visible (settle att s2 st) = visible st').
Proof.
  intros Htry st'.
  assert (Est : st' = click_resume att (Throw e)
                        (emit (ConsoleError (api_error_message (att_prompt att)) e) st))
    by apply (settle_thrown att s e st Htry).
  assert (Hout : forall x, outcome (Throw x) = Failed "API error.") by reflexivity.
  split; [reflexivity|].
  split; [unfold generateImage_resume; now rewrite Htry|].
  split; [reflexivity|].
  split; [rewrite Est; apply click_resume_trace|].
  split; [rewrite Est, click_resume_trace; reflexivity|].
  destruct (click_resume_failed_grid att (Throw e) _
              (emit (ConsoleError (api_error_message (att_prompt att)) e) st)
              (Hout e)) as [Hswap Himg].
  split; [rewrite Est; exact Himg|].
  split; [rewrite Est; exact Hswap|].
  intros s2 e2 H2. rewrite (settle_thrown att s2 e2 st H2), Est.
  rewrite (visible_failed att (Throw e2) _ _ st (Hout e2)).
  now rewrite (visible_failed att (Throw e) _ _ st (Hout e)).
Qed.

Lemma service_failure_collapses_witness :
  let st := page_after single_attempt in
  let att := mkAttempt 0 "standing, with a smile, in a suit, captured from the front" in
  map node_tile (resultsGrid (settle att (Rejected (ServiceError "503")) st))
  = [ErrorTile "API error."] /\
  visible (settle att (Fulfilled blocked_response) st)
  = visible (settle att (Rejected (ServiceError "503")) st).
Proof.
  cbv zeta.
  destruct (service_failure_collapses
              (mkAttempt 0 "standing, with a smile, in a suit, captured from the front")
              (Rejected (ServiceError "503")) (ServiceError "503")
              (page_after single_attempt) eq_refl)
    as (_ & _ & _ & _ & _ & _ & _ & Hsame).
  split; [vm_compute; reflexivity|].
  apply (Hsame (Fulfilled blocked_response) (TypeError "candidates is undefined")).
  reflexivity.
Defined.

(** ** When an image tile can enter the grid *)

Lemma replace_with_error_grid (ph : nat) (msg : string) (st : Page) :
  resultsGrid (replace_with_error ph msg st) = resultsGrid st \/
  resultsGrid (replace_with_error ph msg st)
  = replaceChild (mkNode (next_node st) (ErrorTile msg)) ph (resultsGrid st).
Proof.
  unfold replace_with_error.
  destruct (contains (resultsGrid st) ph); [right | left]; reflexivity.
Qed.

Lemma click_resume_grid (att : Attempt) (c : Completion) (st : Page) :
  resultsGrid (click_resume att c st) = resultsGrid st \/
  exists msg,
    resultsGrid (click_resume att c st)
    = replaceChild (mkNode (next_node st) (ErrorTile msg)) (att_placeholder att)
        (resultsGrid st).
Proof.
  destruct (outcome c) as [src|msg] eqn:E.
  - left. now apply click_resume_succeeded_grid with src.
  - rewrite (click_resume_failed att c msg st E).
    cbn [resultsGrid setControlsDisabled loadingIndicator_hide emit
         set_controls set_loadingIndicator_hidden].
    destruct (replace_with_error_grid (att_placeholder att) msg st) as [H|H];
      [left | right; exists msg]; exact H.
Qed.

Lemma settle_grid (att : Attempt) (s : Settled) (st : Page) :
  resultsGrid (settle att s st) = resultsGrid st \/
  exists msg,
    resultsGrid (settle att s st)
    = replaceChild (mkNode (next_node st) (ErrorTile msg)) (att_placeholder att)
        (resultsGrid st).
Proof.
  unfold settle, generateImage_resume.
  destruct (generateImage_try s) as [e|v].
  - exact (click_resume_grid att (Throw e)
             (emit (ConsoleError (api_error_message (att_prompt att)) e) st)).
  - apply click_resume_grid.
Qed.

Lemma error_node_not_image (id : nat) (msg : string) :
  ~ is_image_tile (mkNode id (ErrorTile msg)).
Proof. intros [c H]. discriminate. Qed.

Lemma placeholder_node_not_image (id : nat) :
  ~ is_image_tile (mkNode id Placeholder).
Proof. intros [c H]. discriminate. Qed.

Lemma step_image_tile (e : Event) (st st' : Page) (n : Node) :
  step e st = Some st' ->
  In n (resultsGrid st') ->
  is_image_tile n ->
  In n (resultsGrid st) \/
  exists i il,
    e = ImageLoads i /\ nth_error (images st) i = Some il /\ n = il_container il.
Proof.
  destruct e as [| |files|files|i|w v| |i s|i|i]; simpl; intros H Hin Himg.
  - injection H as <-. now left.
  - injection H as <-. now left.
  - injection H as <-. left. revert Hin. unfold drop.
    destruct files as [[|file rest]|]; try (simpl; tauto).
    destruct (handleFile_frame file (set_dragover false st))
      as (_ & _ & _ & -> & _). simpl. tauto.
  - injection H as <-. left. revert Hin. unfold handleFileSelect.
    destruct files as [[|file rest]|]; try (simpl; tauto).
    destruct (handleFile_frame file st) as (_ & _ & _ & -> & _). tauto.
  - destruct (nth_error (readers st) i); [|discriminate].
    injection H as <-. now left.
  - destruct (select_disabled w (controls st)); [discriminate|].
    injection H as <-. now left.
  - destruct (generateBtn_disabled (controls st)); [discriminate|].
    injection H as <-. left.
    destruct (uploadedFile st) as [up|] eqn:E.
    + rewrite (click_with_upload st up E) in Hin. cbn [resultsGrid] in Hin.
      destruct Hin as [<-|[]]. now destruct (placeholder_node_not_image (next_node st)).
    + now rewrite (click_without_upload st E) in Hin.
  - destruct (nth_error (requests st) i) as [att|]; [|discriminate].
    injection H as <-. left.
    destruct (settle_grid att s (set_requests (remove_nth i (requests st)) st))
      as [E|[msg E]]; rewrite E in Hin; cbn [resultsGrid set_requests] in Hin.
    + exact Hin.
    + destruct (In_replaceChild _ _ _ _ Hin) as [->|Hold]; [|exact Hold].
      now destruct (error_node_not_image _ _ Himg).
  - destruct (nth_error (images st) i) as [il|] eqn:E; [|discriminate].
    injection H as <-. revert Hin. unfold img_onload.
    cbn [resultsGrid set_images].
    destruct (contains (resultsGrid st) (il_placeholder il)).
    + cbn [resultsGrid set_resultsGrid set_images]. intros Hin.
      destruct (In_replaceChild _ _ _ _ Hin) as [->|Hold]; [|now left].
      right. exists i, il. split; [reflexivity|]. split; [exact E | reflexivity].
    + cbn [resultsGrid set_images]. now left.
  - destruct (nth_error (images st) i) as [il|]; [|discriminate].
    injection H as <-. left. unfold img_onerror in Hin.
    destruct (replace_with_error_grid (il_placeholder il) "Failed to load image."
                (set_images (remove_nth i (images st)) st)) as [E|E];
      rewrite E in Hin; cbn [resultsGrid set_images next_node] in Hin.
    + exact Hin.
    + destruct (In_replaceChild _ _ _ _ Hin) as [->|Hold]; [|exact Hold].
      now destruct (error_node_not_image _ _ Himg).
Qed.

(** ** Pending callbacks and node identities *)

Lemma In_remove_nth {A : Type} (x : A) (i : nat) (l : list A) :
  In x (remove_nth i l) -> In x l.
Proof.
  revert i. induction l as [|y l IH]; intros [|i]; simpl; try tauto.
  intros [H|H]; [now left | right; now apply IH with i].
Qed.

Lemma click_resume_pending (att : Attempt) (c : Completion) (st : Page) :
  next_node st <= next_node (click_resume att c st) /\
  (forall il, In il (images (click_resume att c st)) ->
              In il (images st) \/ il_placeholder il = att_placeholder att).
Proof.
  unfold click_resume, replace_with_error. branches; simpl; split;
    try lia; try tauto.
  intros il H. apply in_app_or in H. destruct H as [H|[<-|[]]]; [now left | now right].
Qed.

Lemma settle_pending (att : Attempt) (s : Settled) (st : Page) :
  next_node st <= next_node (settle att s st) /\
  (forall il, In il (images (settle att s st)) ->
              In il (images st) \/ il_placeholder il = att_placeholder att).
Proof.
  unfold settle, generateImage_resume.
  destruct (generateImage_try s) as [e|v].
  - exact (click_resume_pending att (Throw e)
             (emit (ConsoleError (api_error_message (att_prompt att)) e) st)).
  - apply click_resume_pending.
Qed.

Lemma handleFile_pending (file : File) (st : Page) :
  next_node (handleFile file st) = next_node st.
Proof.
  unfold handleFile.
  destruct (negb (Js.startsWith (file_type file) "image/")); reflexivity.
Qed.

Lemma img_onerror_pending (il : ImageLoad) (st : Page) :
  next_node st <= next_node (img_onerror il st).
Proof. unfold img_onerror, replace_with_error. branches; simpl; lia. Qed.

Lemma img_onload_pending (il : ImageLoad) (st : Page) :
  next_node (img_onload il st) = next_node st.
Proof. unfold img_onload. branches; reflexivity. Qed.

Lemma ids_bounded_weaken (st st' : Page) :
  ids_bounded st ->
  next_node st <= next_node st' ->
  (forall att, In att (requests st') -> In att (requests st)) ->
  (forall il, In il (images st') -> In il (images st)) ->
  ids_bounded st'.
Proof.
  intros [Hr Hi] Hle Hr' Hi'. split.
  - intros att H. specialize (Hr att (Hr' att H)). lia.
  - intros il H. specialize (Hi il (Hi' il H)). lia.
Qed.

Lemma step_ids_bounded (e : Event) (st st' : Page) :
  ids_bounded st -> step e st = Some st' -> ids_bounded st'.
Proof.
  intros Hinv.
  destruct e as [| |files|files|i|w v| |i s|i|i]; simpl; intros H.
  - injection H as <-. exact Hinv.
  - injection H as <-. exact Hinv.
  - injection H as <-. unfold drop.
    destruct files as [[|file rest]|]; try exact Hinv.
    destruct (handleFile_frame file (set_dragover false st))
      as (_ & Hr & Hi & _).
    apply (ids_bounded_weaken st); [exact Hinv | | |].
    + now rewrite handleFile_pending.
    + now rewrite Hr.
    + now rewrite Hi.
  - injection H as <-. unfold handleFileSelect.
    destruct files as [[|file rest]|]; try exact Hinv.
    destruct (handleFile_frame file st) as (_ & Hr & Hi & _).
    apply (ids_bounded_weaken st); [exact Hinv | | |].
    + now rewrite handleFile_pending.
    + now rewrite Hr.
    + now rewrite Hi.
  - destruct (nth_error (readers st) i); [|discriminate].
    injection H as <-. exact Hinv.
  - destruct (select_disabled w (controls st)); [discriminate|].
    injection H as <-. exact Hinv.
  - destruct (generateBtn_disabled (controls st)); [discriminate|].
    injection H as <-. destruct Hinv as [Hr Hi].
    destruct (uploadedFile st) as [up|] eqn:E.
    + rewrite (click_with_upload st up E). split; cbn [requests images next_node].
      * intros att H. apply in_app_or in H. destruct H as [H|[<-|[]]].
        -- specialize (Hr att H). lia.
        -- simpl. lia.
      * intros il H. specialize (Hi il H). lia.
    + rewrite (click_without_upload st E). now split.
  - destruct (nth_error (requests st) i) as [att|] eqn:E; [|discriminate].
    injection H as <-. destruct Hinv as [Hr Hi].
    set (st1 := set_requests (remove_nth i (requests st)) st).
    destruct (settle_pending att s st1) as [Hle Himg].
    destruct (settle_frame att s st1) as (_ & _ & _ & _ & _ & _ & Hreq).
    change (next_node st1) with (next_node st) in Hle.
    split.
    + rewrite Hreq. intros a Ha. apply In_remove_nth in Ha.
      specialize (Hr a Ha). lia.
    + intros il Hil. destruct (Himg il Hil) as [Hold | ->].
      * specialize (Hi il Hold). lia.
      * specialize (Hr att (nth_error_In _ _ E)). lia.
  - destruct (nth_error (images st) i) as [il|]; [|discriminate].
    injection H as <-.
    set (st1 := set_images (remove_nth i (images st)) st).
    destruct (img_onload_frame il st1) as (_ & _ & _ & _ & _ & Hr & Hi).
    apply (ids_bounded_weaken st); [exact Hinv | | |].
    + now rewrite img_onload_pending.
    + now rewrite Hr.
    + rewrite Hi. intros x. apply In_remove_nth.
  - destruct (nth_error (images st) i) as [il|]; [|discriminate].
    injection H as <-.
    set (st1 := set_images (remove_nth i (images st)) st).
    destruct (img_onerror_frame il st1) as (_ & _ & _ & _ & _ & Hr & Hi).
    apply (ids_bounded_weaken st); [exact Hinv | | |].
    + exact (img_onerror_pending il st1).
    + now rewrite Hr.
    + rewrite Hi. intros x. apply In_remove_nth.
Qed.

Lemma reachable_ids_bounded (st : Page) : reachable st -> ids_bounded st.
Proof.
  induction 1 as [st (_ & _ & Hr & Hi & _) | st e st' _ IH Hstep].
  - split; intros x H; [rewrite Hr in H | rewrite Hi in H]; destruct H.
  - now apply (step_ids_bounded e st st').
Qed.

Lemma click_clears_grid (st : Page) (up : UploadedFile) (ph : nat) :
  uploadedFile st = Some up ->
  ph < next_node st ->
  contains (resultsGrid (click st)) ph = false.
Proof.
  intros E Hlt. rewrite (click_with_upload st up E). cbn [resultsGrid contains existsb node_id].
  rewrite orb_false_r. apply Nat.eqb_neq. lia.
Qed.

(** ** Render success and render failure *)

(** C8, as stated, fails: the service call succeeds, the controls are
    enabled again, and the user generates once more before the returned
    image has loaded.  When that image then fails to load its placeholder
    is gone, so no "Failed to load image." tile appears. *)
Lemma load_failure_without_error_tile :
  let evs := regenerate_before_load ++ [ImageFails 0] in
  run evs fresh_page = Some (page_after evs) /\
  nth_error (images (page_after regenerate_before_load)) 0 = Some sample_image_load /\
  resultsGrid (page_after evs) = [mkNode 2 Placeholder] /\
  ~ In (ErrorTile "Failed to load image.") (map node_tile (resultsGrid (page_after evs))).
Proof.
  cbv zeta.
  split; [vm_compute; reflexivity|].
  split; [vm_compute; reflexivity|].
  split; [vm_compute; reflexivity|].
  vm_compute. intros [H|[]]. discriminate.
Qed.

(** C8, amended: a response with an inline image leaves the grid as it
    is (the placeholder stays) and only registers the built tile with the
    image's load handlers.  An image tile enters the grid in no other way
    than by the load event of its image.  On load the tile replaces the
    attempt's placeholder, on a load failure an error tile reading
    "Failed to load image." does, in both cases if the grid still
    contains the placeholder; if it does not, the grid is left as it
    is. *)
Theorem image_tile_after_load :
  (forall att r ps b st,
      response_parts r = inr ps ->
      first_inline_part ps b ->
      resultsGrid (settle att (Fulfilled r) st) = resultsGrid st /\
      exists c,
        images (settle att (Fulfilled r) st)
        = images st ++ [mkImageLoad (att_placeholder att)
                          (mkNode (next_node st) (ImageTile c))]) /\
  (forall e st st' n,
      step e st = Some st' ->
      In n (resultsGrid st') ->
      is_image_tile n ->
      In n (resultsGrid st) \/
      exists i il,
        e = ImageLoads i /\ nth_error (images st) i = Some il /\
        n = il_container il) /\
  (forall il st,
      guarded_swap (il_placeholder il) (node_tile (il_container il))
        (resultsGrid st) (resultsGrid (img_onload il st))) /\
  (forall il st,
      guarded_swap (il_placeholder il) (ErrorTile "Failed to load image.")
        (resultsGrid st) (resultsGrid (img_onerror il st))).
Proof.
  split; [|split; [|split]].
  - intros att r ps b st Hparts Hfirst.
    rewrite (settle_scanned att r ps st Hparts).
    rewrite (click_resume_succeeded att _ _ st (outcome_found ps b Hfirst)).
    split; [reflexivity|]. eexists. reflexivity.
  - exact step_image_tile.
  - exact img_onload_swap.
  - exact img_onerror_swap.
Qed.

Lemma image_tile_after_load_witness :
  let st := page_after (single_attempt ++ [ServiceSettles 0 (Fulfilled png_response)]) in
  resultsGrid st = [mkNode 0 Placeholder] /\
  images st = [sample_image_load] /\
  swapped 0 (node_tile (il_container sample_image_load)) (resultsGrid st)
    (resultsGrid (img_onload sample_image_load st)) /\
  swapped 0 (ErrorTile "Failed to load image.") (resultsGrid st)
    (resultsGrid (img_onerror sample_image_load st)).
Proof.
  cbv zeta.
  destruct image_tile_after_load as (Hsettle & _ & Hload & Herror).
  split; [vm_compute; reflexivity|].
  split; [vm_compute; reflexivity|].
  split.
  - apply (Hload sample_image_load). vm_compute. reflexivity.
  - apply (Herror sample_image_load). vm_compute. reflexivity.
Defined.

(** ** Data URLs *)

Lemma list_ascii_append (a b : string) :
  list_ascii_of_string (a ++ b) = list_ascii_of_string a ++ list_ascii_of_string b.
Proof. induction a as [|c a IH]; simpl; [reflexivity | now rewrite IH]. Qed.

Lemma comma_free_append (a b : string) :
  comma_free a -> comma_free b -> comma_free (a ++ b).
Proof.
  unfold comma_free. rewrite list_ascii_append. intros Ha Hb H.
  apply in_app_or in H. tauto.
Qed.

Lemma comma_free_cons (c : ascii) (s : string) :
  comma_free (String c s) <-> c <> ","%char /\ comma_free s.
Proof.
  unfold comma_free. simpl. split.
  - intros H. split; [intros E; apply H; left; now symmetry | tauto].
  - intros [Hc Hs] [E|E]; [apply Hc; now symmetry | tauto].
Qed.

Lemma split_comma_free (s : string) :
  comma_free s -> Js.split ","%char s = [s].
Proof.
  induction s as [|c s IH]; simpl; [reflexivity|].
  intros H. apply comma_free_cons in H. destruct H as [Hc Hs].
  destruct (Ascii.eqb_spec c ","%char) as [E|_]; [contradiction|].
  now rewrite (IH Hs).
Qed.

Lemma split_at_comma (a b : string) :
  comma_free a ->
  Js.split ","%char (a ++ String ","%char b) = a :: Js.split ","%char b.
Proof.
  induction a as [|c a IH]; simpl; [reflexivity|].
  intros H. apply comma_free_cons in H. destruct H as [Hc Hs].
  destruct (Ascii.eqb_spec c ","%char) as [E|_]; [contradiction|].
  now rewrite (IH Hs).
Qed.

Lemma digit_not_comma (n : N) : Platform.digit n <> ","%char.
Proof.
  unfold Platform.digit.
  assert (H : Forall (fun c => c <> ","%char) Platform.alphabet)
    by (repeat constructor; discriminate).
  destruct (nth_in_or_default (N.to_nat (n mod 64)) Platform.alphabet "A"%char)
    as [Hin | ->]; [|discriminate].
  rewrite Forall_forall in H. now apply H.
Qed.

Lemma quad_comma_free (a b c d : ascii) (rest : string) :
  a <> ","%char -> b <> ","%char -> c <> ","%char -> d <> ","%char ->
  comma_free rest -> comma_free (Platform.quad a b c d rest).
Proof.
  intros Ha Hb Hc Hd Hr. unfold Platform.quad.
  repeat (apply comma_free_cons; split; [assumption|]). exact Hr.
Qed.

Lemma base64_comma_free_upto (n : nat) :
  forall bs, length bs <= n -> comma_free (Platform.base64 bs).
Proof.
  assert (Hpad : Platform.pad <> ","%char) by discriminate.
  assert (Hnil : comma_free EmptyString) by (intros []).
  induction n as [|n IH]; intros bs Hlen.
  - destruct bs; [exact Hnil | simpl in Hlen; lia].
  - destruct bs as [|x [|y [|z rest]]]; cbn [Platform.base64].
    + exact Hnil.
    + apply quad_comma_free; auto using digit_not_comma.
    + apply quad_comma_free; auto using digit_not_comma.
    + apply quad_comma_free; auto using digit_not_comma.
      apply IH. simpl in Hlen. lia.
Qed.

Lemma base64_comma_free (bs : list byte) : comma_free (Platform.base64 bs).
Proof. now apply (base64_comma_free_upto (length bs)). Qed.

Lemma base64_nonempty (bs : list byte) :
  bs <> [] -> Platform.base64 bs <> EmptyString.
Proof.
  destruct bs as [|x [|y [|z rest]]]; cbn [Platform.base64 Platform.quad];
    [congruence | discriminate | discriminate | discriminate].
Qed.

Lemma data_url_payload (file : File) :
  comma_free (file_type file) ->
  Js.index (Js.split ","%char (Platform.readAsDataURL file)) 1
  = Some (Platform.base64 (file_bytes file)).
Proof.
  intros Hty. unfold Platform.readAsDataURL.
  replace ("data:" ++ file_type file ++ ";base64," ++ Platform.base64 (file_bytes file))%string
    with (("data:" ++ file_type file ++ ";base64")
          ++ String ","%char (Platform.base64 (file_bytes file)))%string
    by (rewrite !append_assoc; reflexivity).
  rewrite split_at_comma.
  - now rewrite (split_comma_free _ (base64_comma_free (file_bytes file))).
  - apply comma_free_append; [|apply comma_free_append; [exact Hty|]].
    + unfold comma_free. simpl. intuition discriminate.
    + unfold comma_free. simpl. intuition discriminate.
Qed.

(** ** The stored upload *)

Lemma click_upload (st : Page) :
  uploadedFile (click st) = uploadedFile st /\ readers (click st) = readers st.
Proof.
  destruct (uploadedFile st) as [up|] eqn:E.
  - rewrite (click_with_upload st up E). now split.
  - rewrite (click_without_upload st E). now split.
Qed.

Lemma handleFile_readers (file : File) (st : Page) :
  forall f, In f (readers (handleFile file st)) ->
            In f (readers st) \/
            (f = file /\ Js.startsWith (file_type file) "image/" = true).
Proof.
  intros f. unfold handleFile.
  destruct (Js.startsWith (file_type file) "image/"); simpl.
  - intros H. apply in_app_or in H. destruct H as [H|[<-|[]]]; [now left | now right].
  - now left.
Qed.

Lemma step_upload (e : Event) (st st' : Page) :
  step e st = Some st' ->
  uploadedFile st' = uploadedFile st \/
  exists i file,
    e = ReaderLoads i /\ nth_error (readers st) i = Some file /\
    uploadedFile st' = Some (upload_of file).
Proof.
  destruct e as [| |files|files|i|w v| |i s|i|i]; simpl; intros H.
  - injection H as <-. now left.
  - injection H as <-. now left.
  - injection H as <-. left. unfold drop.
    destruct files as [[|file rest]|]; try reflexivity.
    now destruct (handleFile_frame file (set_dragover false st)) as (-> & _).
  - injection H as <-. left. unfold handleFileSelect.
    destruct files as [[|file rest]|]; try reflexivity.
    now destruct (handleFile_frame file st) as (-> & _).
  - destruct (nth_error (readers st) i) as [file|] eqn:E; [|discriminate].
    injection H as <-. right. exists i, file.
    split; [reflexivity|]. split; [exact E | reflexivity].
  - destruct (select_disabled w (controls st)); [discriminate|].
    injection H as <-. now left.
  - destruct (generateBtn_disabled (controls st)); [discriminate|].
    injection H as <-. left. apply click_upload.
  - destruct (nth_error (requests st) i) as [att|]; [|discriminate].
    injection H as <-. left.
    now destruct (settle_frame att s (set_requests (remove_nth i (requests st)) st))
      as (_ & _ & -> & _).
  - destruct (nth_error (images st) i) as [il|]; [|discriminate].
    injection H as <-. left.
    now destruct (img_onload_frame il (set_images (remove_nth i (images st)) st))
      as (_ & _ & _ & -> & _).
  - destruct (nth_error (images st) i) as [il|]; [|discriminate].
    injection H as <-. left.
    now destruct (img_onerror_frame il (set_images (remove_nth i (images st)) st))
      as (_ & _ & _ & -> & _).
Qed.

Lemma step_readers (e : Event) (st st' : Page) :
  step e st = Some st' ->
  forall f, In f (readers st') ->
            In f (readers st) \/ Js.startsWith (file_type f) "image/" = true.
Proof.
  destruct e as [| |files|files|i|w v| |i s|i|i]; simpl; intros H f Hf.
  - injection H as <-. now left.
  - injection H as <-. now left.
  - injection H as <-. unfold drop in Hf.
    destruct files as [[|file rest]|]; try (now left).
    destruct (handleFile_readers file _ f Hf) as [Hold|[-> Hty]];
      [now left | now right].
  - injection H as <-. unfold handleFileSelect in Hf.
    destruct files as [[|file rest]|]; try (now left).
    destruct (handleFile_readers file _ f Hf) as [Hold|[-> Hty]];
      [now left | now right].
  - destruct (nth_error (readers st) i) as [file|]; [|discriminate].
    injection H as <-. left. simpl in Hf. now apply In_remove_nth in Hf.
  - destruct (select_disabled w (controls st)); [discriminate|].
    injection H as <-. now left.
  - destruct (generateBtn_disabled (controls st)); [discriminate|].
    injection H as <-. left. now rewrite (proj2 (click_upload st)) in Hf.
  - destruct (nth_error (requests st) i) as [att|]; [|discriminate].
    injection H as <-. left.
    destruct (settle_frame att s (set_requests (remove_nth i (requests st)) st))
      as (_ & _ & _ & _ & _ & Hr & _).
    now rewrite Hr in Hf.
  - destruct (nth_error (images st) i) as [il|]; [|discriminate].
    injection H as <-. left.
    destruct (img_onload_frame il (set_images (remove_nth i (images st)) st))
      as (_ & _ & _ & _ & Hr & _).
    now rewrite Hr in Hf.
  - destruct (nth_error (images st) i) as [il|]; [|discriminate].
    injection H as <-. left.
    destruct (img_onerror_frame il (set_images (remove_nth i (images st)) st))
      as (_ & _ & _ & _ & Hr & _).
    now rewrite Hr in Hf.
Qed.

Lemma step_upload_checked (e : Event) (st st' : Page) :
  upload_checked st -> step e st = Some st' -> upload_checked st'.
Proof.
  intros [Hreaders Hup] Hstep. split.
  - intros f Hf. destruct (step_readers e st st' Hstep f Hf) as [Hold|Hty];
      [now apply Hreaders | exact Hty].
  - destruct (step_upload e st st' Hstep) as [-> | (i & file & _ & Hnth & ->)].
    + exact Hup.
    + exists file. split; [reflexivity|].
      apply Hreaders. now apply nth_error_In with i.
Qed.

Lemma reachable_upload_checked (st : Page) : reachable st -> upload_checked st.
Proof.
  induction 1 as [st (Hu & Hr & _) | st e st' _ IH Hstep].
  - split; [rewrite Hr; intros f [] | now rewrite Hu].
  - now apply (step_upload_checked e st st').
Qed.

Lemma run_without_reader_load (evs : list Event) :
  forall st st',
    run evs st = Some st' ->
    forallb (fun e => negb (is_reader_load e)) evs = true ->
    uploadedFile st' = uploadedFile st.
Proof.
  induction evs as [|e evs IH]; simpl; intros st st' H Hno.
  - now injection H as <-.
  - destruct (step e st) as [st1|] eqn:E; [|discriminate].
    apply andb_prop in Hno. destruct Hno as [He Hrest].
    rewrite (IH st1 st' H Hrest).
    destruct (step_upload e st st1 E) as [Hsame | (i & file & -> & _)];
      [exact Hsame | discriminate].
Qed.

(** C9, as stated, fails: selecting an image file without content stores
    an upload whose payload is the empty string. *)
Lemma empty_image_breaks_payload_invariant :
  let evs := [FileInputChange (Some [empty_png]); ReaderLoads 0] in
  run evs fresh_page = Some (page_after evs) /\
  reachable (page_after evs) /\
  uploadedFile (page_after evs) = Some (mkUploadedFile (Some EmptyString) "image/png") /\
  ~ upload_invariant_as_specified (uploadedFile (page_after evs)).
Proof.
  cbv zeta.
  assert (R : run [FileInputChange (Some [empty_png]); ReaderLoads 0] fresh_page
              = Some (page_after [FileInputChange (Some [empty_png]); ReaderLoads 0]))
    by (vm_compute; reflexivity).
  split; [exact R|].
  split; [exact (run_reachable _ _ _ (reach_start _ fresh_page_start) R)|].
  split; [vm_compute; reflexivity|].
  vm_compute. intros [(s & Hs & Hne) _].
  injection Hs as <-. now apply Hne.
Qed.

(** C9, amended: the stored upload is absent when the script starts and
    stays absent until a reader has loaded; on every reachable page it is
    either absent or the upload of one file that passed the type check,
    so its [mimeType] begins with "image/"; its payload is the second
    comma-separated segment of the file's data URL, which for a type
    without a comma is the base64 text of the file's bytes, non-empty when
    the file is non-empty (and empty for a file without content).  Only
    the load of a reader changes it, and then both fields are replaced
    together by those of that reader's file. *)
Theorem upload_invariant :
  (forall st, script_start st -> uploadedFile st = None) /\
  (forall evs st st',
      script_start st ->
      run evs st = Some st' ->
      forallb (fun e => negb (is_reader_load e)) evs = true ->
      uploadedFile st' = None) /\
  (forall st,
      reachable st ->
      match uploadedFile st with
      | None => True
      | Some up =>
          image_typed up /\
          exists file,
            up = upload_of file /\
            (comma_free (file_type file) ->
             base64 up = Some (Platform.base64 (file_bytes file)) /\
             (file_bytes file <> [] -> payload_nonempty up) /\
             (file_bytes file = [] -> base64 up = Some EmptyString))
      end) /\
  (forall e st st',
      step e st = Some st' ->
      uploadedFile st' = uploadedFile st \/
      exists i file,
        e = ReaderLoads i /\ nth_error (readers st) i = Some file /\
        uploadedFile st' = Some (upload_of file)).
Proof.
  split; [|split; [|split]].
  - now intros st (H & _).
  - intros evs st st' (Hu & _) Hrun Hno.
    now rewrite (run_without_reader_load evs st st' Hrun Hno).
  - intros st Hreach.
    destruct (reachable_upload_checked st Hreach) as [_ Hup].
    destruct (uploadedFile st) as [up|]; [|exact I].
    destruct Hup as (file & -> & Hty). split; [exact Hty|].
    exists file. split; [reflexivity|]. intros Hfree.
    assert (E : base64 (upload_of file) = Some (Platform.base64 (file_bytes file)))
      by exact (data_url_payload file Hfree).
    split; [exact E|]. split.
    + intros Hne. exists (Platform.base64 (file_bytes file)).
      split; [exact E | now apply base64_nonempty].
    + intros Hnil. rewrite E, Hnil. reflexivity.
  - exact step_upload.
Qed.

Lemma upload_invariant_witness :
  reachable uploaded_page /\
  uploadedFile uploaded_page = Some (mkUploadedFile (Some "iVBORw==") "image/png") /\
  image_typed (mkUploadedFile (Some "iVBORw==") "image/png").
Proof.
  assert (R : run [FileInputChange (Some [sample_png]); ReaderLoads 0] fresh_page
              = Some uploaded_page)
    by (vm_compute; reflexivity).
  assert (Hreach : reachable uploaded_page)
    by exact (run_reachable _ _ _ (reach_start _ fresh_page_start) R).
  assert (E : uploadedFile uploaded_page
              = Some (mkUploadedFile (Some "iVBORw==") "image/png"))
    by (vm_compute; reflexivity).
  destruct upload_invariant as (_ & _ & Hinv & _).
  specialize (Hinv uploaded_page Hreach). rewrite E in Hinv.
  destruct Hinv as [Hty _].
  split; [exact Hreach|]. split; [exact E | exact Hty].
Defined.

(** ** Ownership of placeholders *)

Lemma click_resume_change (att : Attempt) (c : Completion) (st : Page) :
  requests (click_resume att c st) = requests st /\
  ((exists rc,
       images (click_resume att c st)
       = images st ++ [mkImageLoad (att_placeholder att)
                         (mkNode (next_node st) (ImageTile rc))] /\
       resultsGrid (click_resume att c st) = resultsGrid st /\
       next_node (click_resume att c st) = S (next_node st)) \/
   (exists msg,
       images (click_resume att c st) = images st /\
       rendered (att_placeholder att) (mkNode (next_node st) (ErrorTile msg))
         (resultsGrid st) (resultsGrid (click_resume att c st)) /\
       next_node st <= next_node (click_resume att c st))).
Proof.
  split; [apply click_resume_frame|].
  destruct (outcome c) as [src|msg] eqn:E.
  - left. rewrite (click_resume_succeeded att c src st E).
    eexists. repeat split.
  - right. exists msg. rewrite (click_resume_failed att c msg st E).
    unfold replace_with_error, rendered.
    destruct (contains (resultsGrid st) (att_placeholder att)); simpl.
    + split; [reflexivity|]. split; [now right | lia].
    + split; [reflexivity|]. split; [now left | lia].
Qed.

Lemma settle_change (att : Attempt) (s : Settled) (st : Page) :
  requests (settle att s st) = requests st /\
  ((exists rc,
       images (settle att s st)
       = images st ++ [mkImageLoad (att_placeholder att)
                         (mkNode (next_node st) (ImageTile rc))] /\
       resultsGrid (settle att s st) = resultsGrid st /\
       next_node (settle att s st) = S (next_node st)) \/
   (exists msg,
       images (settle att s st) = images st /\
       rendered (att_placeholder att) (mkNode (next_node st) (ErrorTile msg))
         (resultsGrid st) (resultsGrid (settle att s st)) /\
       next_node st <= next_node (settle att s st))).
Proof.
  unfold settle, generateImage_resume.
  destruct (generateImage_try s) as [e|v].
  - exact (click_resume_change att (Throw e)
             (emit (ConsoleError (api_error_message (att_prompt att)) e) st)).
  - apply click_resume_change.
Qed.

Lemma step_grid_change (e : Event) (st st' : Page) :
  step e st = Some st' -> grid_change st st'.
Proof.
  destruct e as [| |files|files|i|w v| |i s|i|i]; simpl; intros H.
  - injection H as <-. now apply change_none.
  - injection H as <-. now apply change_none.
  - injection H as <-. unfold drop.
    destruct files as [[|file rest]|]; try (now apply change_none).
    destruct (handleFile_frame file (set_dragover false st))
      as (_ & Hr & Hi & Hg & _).
    apply change_none;
      [exact Hr | exact Hi | exact Hg
      | exact (handleFile_pending file (set_dragover false st))].
  - injection H as <-. unfold handleFileSelect.
    destruct files as [[|file rest]|]; try (now apply change_none).
    destruct (handleFile_frame file st) as (_ & Hr & Hi & Hg & _).
    apply change_none; [exact Hr | exact Hi | exact Hg | apply handleFile_pending].
  - destruct (nth_error (readers st) i); [|discriminate].
    injection H as <-. now apply change_none.
  - destruct (select_disabled w (controls st)); [discriminate|].
    injection H as <-. now apply change_none.
  - destruct (generateBtn_disabled (controls st)); [discriminate|].
    injection H as <-. destruct (uploadedFile st) as [up|] eqn:E.
    + rewrite (click_with_upload st up E).
      now apply change_started with (combinedPrompt (selection st)).
    + rewrite (click_without_upload st E). now apply change_none.
  - destruct (nth_error (requests st) i) as [att|] eqn:E; [|discriminate].
    injection H as <-.
    destruct (settle_change att s (set_requests (remove_nth i (requests st)) st))
      as [Hr [(rc & Hi & Hg & Hn) | (msg & Hi & Hg & Hn)]].
    + now apply change_built with i att rc.
    + now apply change_failed with i att msg.
  - destruct (nth_error (images st) i) as [il|] eqn:E; [|discriminate].
    injection H as <-. apply change_loaded with i il; try exact E.
    + now destruct (img_onload_frame il (set_images (remove_nth i (images st)) st))
        as (_ & _ & _ & _ & _ & -> & _).
    + now destruct (img_onload_frame il (set_images (remove_nth i (images st)) st))
        as (_ & _ & _ & _ & _ & _ & ->).
    + unfold img_onload, rendered. cbn [resultsGrid set_images].
      destruct (contains (resultsGrid st) (il_placeholder il)); [now right | now left].
    + exact (img_onload_pending il (set_images (remove_nth i (images st)) st)).
  - destruct (nth_error (images st) i) as [il|] eqn:E; [|discriminate].
    injection H as <-.
    apply change_load_failed with i il "Failed to load image."; try exact E.
    + now destruct (img_onerror_frame il (set_images (remove_nth i (images st)) st))
        as (_ & _ & _ & _ & _ & -> & _).
    + now destruct (img_onerror_frame il (set_images (remove_nth i (images st)) st))
        as (_ & _ & _ & _ & _ & _ & ->).
    + unfold img_onerror, replace_with_error, rendered. cbn [resultsGrid set_images].
      destruct (contains (resultsGrid st) (il_placeholder il)); [now right | now left].
    + exact (img_onerror_pending il (set_images (remove_nth i (images st)) st)).
Qed.

Lemma map_remove_nth {A B : Type} (f : A -> B) (i : nat) (l : list A) :
  map f (remove_nth i l) = remove_nth i (map f l).
Proof.
  revert i. induction l as [|x l IH]; intros [|i]; simpl; try reflexivity.
  now rewrite IH.
Qed.

Lemma remove_nth_permutation {A : Type} (i : nat) (l : list A) (x : A) :
  nth_error l i = Some x -> Permutation l (x :: remove_nth i l).
Proof.
  revert i. induction l as [|y l IH]; intros [|i]; simpl; try discriminate.
  - intros H. injection H as ->. apply Permutation_refl.
  - intros H. apply perm_trans with (y :: x :: remove_nth i l).
    + apply perm_skip. now apply IH.
    + apply perm_swap.
Qed.

Lemma NoDup_remove_nth {A : Type} (i : nat) (l : list A) :
  NoDup l -> NoDup (remove_nth i l).
Proof.
  revert i. induction l as [|y l IH]; intros [|i] H; simpl.
  - exact H.
  - exact H.
  - now inversion H.
  - inversion H as [|? ? Hy Hl]; subst. constructor.
    + intros Hin. apply Hy. now apply In_remove_nth with i.
    + now apply IH.
Qed.

Lemma NoDup_app_disjoint {A : Type} (a b : list A) (x : A) :
  NoDup (a ++ b) -> In x a -> ~ In x b.
Proof.
  induction a as [|y a IH]; simpl; [tauto|].
  intros H [->|Hin] Hb.
  - inversion H as [|? ? Hy _]; subst. apply Hy. apply in_or_app. now right.
  - inversion H; subst. now apply IH.
Qed.

Lemma NoDup_app_shrink {A : Type} (a b a' b' : list A) :
  NoDup (a ++ b) ->
  NoDup a' -> NoDup b' ->
  (forall x, In x a' -> In x a) ->
  (forall x, In x b' -> In x b) ->
  NoDup (a' ++ b').
Proof.
  intros H Ha Hb Hsa Hsb. apply NoDup_app; [exact Ha | exact Hb |].
  intros x Hx Hx'. apply (NoDup_app_disjoint a b x H); auto.
Qed.

Lemma pending_after_removal (st st' : Page) (i : nat) :
  (requests st' = remove_nth i (requests st) /\ images st' = images st) \/
  (requests st' = requests st /\ images st' = remove_nth i (images st)) ->
  NoDup (pending_placeholders st) ->
  NoDup (pending_placeholders st') /\
  (forall p, In p (pending_placeholders st') -> In p (pending_placeholders st)).
Proof.
  unfold pending_placeholders.
  intros [[-> ->] | [-> ->]] Hnd; rewrite map_remove_nth.
  - split.
    + apply (NoDup_app_shrink _ _ _ _ Hnd); auto.
      * apply NoDup_remove_nth. now apply NoDup_app_remove_r in Hnd.
      * now apply NoDup_app_remove_l in Hnd.
      * intros x. apply In_remove_nth.
    + intros p H. apply in_app_or in H. apply in_or_app.
      destruct H as [H|H]; [left; now apply In_remove_nth in H | now right].
  - split.
    + apply (NoDup_app_shrink _ _ _ _ Hnd); auto.
      * now apply NoDup_app_remove_r in Hnd.
      * apply NoDup_remove_nth. now apply NoDup_app_remove_l in Hnd.
      * intros x. apply In_remove_nth.
    + intros p H. apply in_app_or in H. apply in_or_app.
      destruct H as [H|H]; [now left | right; now apply In_remove_nth in H].
Qed.

Lemma rendered_owned (ph : nat) (new : Node) (g g' : list Node) (pending : list nat) :
  rendered ph new g g' ->
  ~ In (node_id new) pending ->
  (forall n, In n g -> In (node_id n) pending -> node_tile n = Placeholder) ->
  forall n, In n g' -> In (node_id n) pending -> node_tile n = Placeholder.
Proof.
  intros [-> | ->] Hnew Hold n Hn Hp; [now apply Hold|].
  destruct (In_replaceChild _ _ _ _ Hn) as [-> | Hg]; [contradiction | now apply Hold].
Qed.

Lemma grid_change_owned (st st' : Page) :
  placeholders_owned st -> grid_change st st' -> placeholders_owned st'.
Proof.
  intros (Hnd & Hlt & Hcont & Hgrid) Hchange.
  destruct Hchange
    as [Hr Hi Hg Hn
       | prompt Hr Hi Hg Hn
       | i att c Hnth Hr Hi Hg Hn
       | i att msg Hnth Hr Hi Hg Hn
       | i il Hnth Hr Hi Hg Hn
       | i il msg Hnth Hr Hi Hg Hn].
  - (* nothing changed *)
    unfold placeholders_owned, pending_placeholders in *.
    rewrite Hr, Hi, Hg, Hn. repeat split; auto; now apply Hcont.
  - (* an attempt started *)
    assert (Hperm : Permutation (next_node st :: pending_placeholders st)
                      (pending_placeholders st')).
    { unfold pending_placeholders. rewrite Hr, Hi, map_app. simpl.
      rewrite <- app_assoc. simpl. apply Permutation_middle. }
    assert (Hfresh : ~ In (next_node st) (pending_placeholders st)).
    { intros H. specialize (Hlt _ H). lia. }
    assert (Hin : forall p, In p (pending_placeholders st') ->
                            p = next_node st \/ In p (pending_placeholders st)).
    { intros p H. apply (Permutation_in _ (Permutation_sym Hperm)) in H.
      destruct H as [<-|H]; [now left | now right]. }
    split; [|split; [|split]].
    + apply (Permutation_NoDup Hperm). now constructor.
    + intros p H. rewrite Hn. destruct (Hin p H) as [->|H']; [lia|].
      specialize (Hlt _ H'). lia.
    + intros il H. rewrite Hi in H. destruct (Hcont il H) as [Hc Hnot].
      rewrite Hn. split; [lia|]. intros H'.
      destruct (Hin _ H') as [E|H'']; [lia | contradiction].
    + intros n H _. rewrite Hg in H. destruct H as [<-|[]]. reflexivity.
  - (* a tile was built *)
    assert (Hperm : Permutation (pending_placeholders st) (pending_placeholders st')).
    { unfold pending_placeholders. rewrite Hr, Hi, map_app, map_remove_nth. simpl.
      apply perm_trans
        with ((att_placeholder att :: remove_nth i (map att_placeholder (requests st)))
              ++ map il_placeholder (images st)).
      - apply Permutation_app_tail, remove_nth_permutation.
        now apply map_nth_error.
      - simpl. rewrite app_assoc. apply Permutation_cons_append. }
    assert (Hin : forall p, In p (pending_placeholders st') ->
                            In p (pending_placeholders st)).
    { intros p. apply Permutation_in. now apply Permutation_sym. }
    split; [|split; [|split]].
    + now apply (Permutation_NoDup Hperm).
    + intros p H. rewrite Hn. specialize (Hlt _ (Hin p H)). lia.
    + intros il H. rewrite Hi in H. rewrite Hn. apply in_app_or in H.
      destruct H as [H|[<-|[]]].
      * destruct (Hcont il H) as [Hc Hnot]. split; [lia|].
        intros H'. apply Hnot. now apply Hin.
      * simpl. split; [lia|]. intros H'. specialize (Hlt _ (Hin _ H')). lia.
    + intros n H Hp. rewrite Hg in H. apply Hgrid; [exact H | now apply Hin].
  - (* an error tile was rendered for an attempt *)
    destruct (pending_after_removal st st' i (or_introl (conj Hr Hi)) Hnd)
      as [Hnd' Hin].
    split; [exact Hnd'|]. split; [|split].
    + intros p H. specialize (Hlt _ (Hin p H)). lia.
    + intros il H. rewrite Hi in H. destruct (Hcont il H) as [Hc Hnot].
      split; [lia|]. intros H'. apply Hnot. now apply Hin.
    + apply (rendered_owned _ _ _ _ _ Hg).
      * simpl. intros H. specialize (Hlt _ (Hin _ H)). lia.
      * intros n H Hp. apply Hgrid; [exact H | now apply Hin].
  - (* an image loaded *)
    destruct (pending_after_removal st st' i (or_intror (conj Hr Hi)) Hnd)
      as [Hnd' Hin].
    split; [exact Hnd'|]. split; [|split].
    + intros p H. specialize (Hlt _ (Hin p H)). lia.
    + intros il' H. rewrite Hi in H. apply In_remove_nth in H.
      destruct (Hcont il' H) as [Hc Hnot].
      split; [lia|]. intros H'. apply Hnot. now apply Hin.
    + apply (rendered_owned _ _ _ _ _ Hg).
      * intros H. apply (proj2 (Hcont il (nth_error_In _ _ Hnth))). now apply Hin.
      * intros n H Hp. apply Hgrid; [exact H | now apply Hin].
  - (* an image failed to load *)
    destruct (pending_after_removal st st' i (or_intror (conj Hr Hi)) Hnd)
      as [Hnd' Hin].
    split; [exact Hnd'|]. split; [|split].
    + intros p H. specialize (Hlt _ (Hin p H)). lia.
    + intros il' H. rewrite Hi in H. apply In_remove_nth in H.
      destruct (Hcont il' H) as [Hc Hnot].
      split; [lia|]. intros H'. apply Hnot. now apply Hin.
    + apply (rendered_owned _ _ _ _ _ Hg).
      * simpl. intros H. specialize (Hlt _ (Hin _ H)). lia.
      * intros n H Hp. apply Hgrid; [exact H | now apply Hin].
Qed.

Lemma reachable_placeholders_owned (st : Page) :
  reachable st -> placeholders_owned st.
Proof.
  induction 1 as [st (_ & _ & Hr & Hi & _) | st e st' _ IH Hstep].
  - unfold placeholders_owned, pending_placeholders. rewrite Hr, Hi. simpl.
    split; [constructor|]. split; [intros p []|]. split; [intros il []|].
    intros n _ [].
  - apply (grid_change_owned st st' IH). now apply step_grid_change with e.
Qed.

(** ** Stale outcomes *)

(** C10: each rendering of an outcome (the "Generation failed." tile,
    the "API error." tile, the image tile on load, the "Failed to load
    image." tile) changes the grid only by putting its tile in the place
    of the attempt's placeholder, every other child kept, and only when
    the grid contains that placeholder at that moment; otherwise it
    leaves the grid as it is.  A successful response by itself leaves the
    grid as it is.  A later attempt clears the grid, so that on any
    reachable page it makes every earlier pending outcome stale.  On
    every reachable page the pending callbacks refer to pairwise
    different placeholders, and a child of the grid that one of them
    refers to is its placeholder tile: what a rendering replaces is the
    attempt's own placeholder. *)
Theorem stale_outcome_leaves_grid :
  (forall att s st,
      match outcome (fst (generateImage_resume (att_prompt att) s st)) with
      | Succeeded _ => resultsGrid (settle att s st) = resultsGrid st
      | Failed msg =>
          (msg = "Generation failed." \/ msg = "API error.") /\
          guarded_swap (att_placeholder att) (ErrorTile msg)
            (resultsGrid st) (resultsGrid (settle att s st))
      end) /\
  (forall il st,
      guarded_swap (il_placeholder il) (node_tile (il_container il))
        (resultsGrid st) (resultsGrid (img_onload il st))) /\
  (forall il st,
      guarded_swap (il_placeholder il) (ErrorTile "Failed to load image.")
        (resultsGrid st) (resultsGrid (img_onerror il st))) /\
  (forall att s st,
      contains (resultsGrid st) (att_placeholder att) = false ->
      resultsGrid (settle att s st) = resultsGrid st) /\
  (forall il st,
      contains (resultsGrid st) (il_placeholder il) = false ->
      resultsGrid (img_onload il st) = resultsGrid st /\
      resultsGrid (img_onerror il st) = resultsGrid st) /\
  (forall st up,
      reachable st ->
      uploadedFile st = Some up ->
      (forall att, In att (requests st) ->
                   contains (resultsGrid (click st)) (att_placeholder att) = false) /\
      (forall il, In il (images st) ->
                  contains (resultsGrid (click st)) (il_placeholder il) = false)) /\
  (forall st,
      reachable st ->
      NoDup (pending_placeholders st) /\
      (forall n, In n (resultsGrid st) ->
                 In (node_id n) (pending_placeholders st) ->
                 node_tile n = Placeholder)).
Proof.
  assert (Hsettle : forall att s st,
      match outcome (fst (generateImage_resume (att_prompt att) s st)) with
      | Succeeded _ => resultsGrid (settle att s st) = resultsGrid st
      | Failed msg =>
          (msg = "Generation failed." \/ msg = "API error.") /\
          guarded_swap (att_placeholder att) (ErrorTile msg)
            (resultsGrid st) (resultsGrid (settle att s st))
      end).
  { intros att s st. unfold settle, generateImage_resume.
    destruct (generateImage_try s) as [e|v]; cbn [fst].
    - split; [now right|].
      exact (proj1 (click_resume_failed_grid att (Throw e) "API error."
                      (emit (ConsoleError (api_error_message (att_prompt att)) e) st)
                      eq_refl)).
    - destruct (outcome (Return v)) as [src|msg] eqn:E.
      + now apply click_resume_succeeded_grid with src.
      + split.
        * unfold outcome in E. destruct (Js.truthy v); [discriminate|].
          injection E as <-. now left.
        * exact (proj1 (click_resume_failed_grid att (Return v) msg st E)). }
  split; [exact Hsettle|].
  split; [exact img_onload_swap|].
  split; [exact img_onerror_swap|].
  split; [|split; [|split]].
  - intros att s st Hout. specialize (Hsettle att s st).
    destruct (outcome (fst (generateImage_resume (att_prompt att) s st))).
    + exact Hsettle.
    + destruct Hsettle as [_ [_ Hkeep]]. now apply Hkeep.
  - intros il st Hout. split.
    + now apply (proj2 (img_onload_swap il st)).
    + now apply (proj2 (img_onerror_swap il st)).
  - intros st up Hreach Hup.
    destruct (reachable_ids_bounded st Hreach) as [Hr Hi]. split.
    + intros att H. apply (click_clears_grid st up); [exact Hup | now apply Hr].
    + intros il H. apply (click_clears_grid st up); [exact Hup | now apply Hi].
  - intros st Hreach.
    destruct (reachable_placeholders_owned st Hreach) as (Hnd & _ & _ & Hgrid).
    now split.
Qed.

Lemma stale_outcome_leaves_grid_witness :
  let st := page_after overlapping_attempts in
  let att := mkAttempt 0 "standing, with a smile, in a suit, captured from the front" in
  reachable st /\
  contains (resultsGrid st) (att_placeholder att) = false /\
  resultsGrid (settle att (Rejected (ServiceError "503")) st) = [mkNode 1 Placeholder] /\
  contains (resultsGrid (click st)) 1 = false.
Proof.
  cbv zeta.
  assert (R : run overlapping_attempts fresh_page
              = Some (page_after overlapping_attempts))
    by (vm_compute; reflexivity).
  assert (Hreach : reachable (page_after overlapping_attempts))
    by exact (run_reachable _ _ _ (reach_start _ fresh_page_start) R).
  destruct stale_outcome_leaves_grid as (_ & _ & _ & Hstale & _ & Hlater & _).
  split; [exact Hreach|].
  split; [vm_compute; reflexivity|].
  split.
  - rewrite (Hstale (mkAttempt 0 "standing, with a smile, in a suit, captured from the front")
               (Rejected (ServiceError "503")) (page_after overlapping_attempts)).
    + vm_compute. reflexivity.
    + vm_compute. reflexivity.
  - apply (proj1 (Hlater (page_after overlapping_attempts) (upload_of sample_png)
                    Hreach ltac:(vm_compute; reflexivity))
             (mkAttempt 1 "standing, with a smile, in a suit, captured from the front")).
    vm_compute. right. left. reflexivity.
Defined.

(* ================================================================== *)
(** * Further properties of the script *)
(* ================================================================== *)

(** ** The download name *)

Lemma sanitized_unit_char (c : ascii) :
  filename_char (Js.toLowerCase_unit (if Js.class_a_z_0_9_i c then c else "_"%char))
  = true.
Proof.
  destruct c as [b0 b1 b2 b3 b4 b5 b6 b7].
  destruct b0, b1, b2, b3, b4, b5, b6, b7; vm_compute; reflexivity.
Qed.



Lemma cleanPrompt_cons (c : ascii) (s : string) :
  cleanPrompt (String c s)
  = String (Js.toLowerCase_unit (if Js.class_a_z_0_9_i c then c else "_"%char))
      (cleanPrompt s).
Proof. reflexivity. Qed.

Lemma cleanPrompt_append (a b : string) :
  cleanPrompt (a ++ b) = (cleanPrompt a ++ cleanPrompt b)%string.
Proof.
  induction a as [|c a IH]; [reflexivity|].
  cbn [String.append]. rewrite !cleanPrompt_cons, IH. reflexivity.
Qed.

(** X1: the sanitised prompt has the length of the prompt and consists
    of lower-case ASCII letters, digits and underscores only, so the
    download name is "generated_", that many such characters, ".png". *)
Theorem download_name_charset (prompt : string) :
  String.length (cleanPrompt prompt) = String.length prompt /\
  forallb filename_char (list_ascii_of_string (cleanPrompt prompt)) = true /\
  String.length (download_filename prompt) = 14 + String.length prompt.
Proof.
  split; [apply cleanPrompt_length|]. split.
  - induction prompt as [|c s IH]; [reflexivity|].
    rewrite cleanPrompt_cons. cbn [list_ascii_of_string forallb].
    now rewrite sanitized_unit_char, IH.
  - unfold download_filename. rewrite !length_append, cleanPrompt_length.
    simpl. lia.
Qed.

(** X2: sanitising distributes over concatenation, so the download name
    of a combined prompt is made of the sanitised values, joined by
    "__with_", "__" and "__captured_". *)
Theorem download_name_of_selection (sel : Selection) :
  (forall a b, cleanPrompt (a ++ b) = (cleanPrompt a ++ cleanPrompt b)%string) /\
  download_filename (combinedPrompt sel)
  = ("generated_" ++ cleanPrompt (poseSelect_value sel) ++ "__with_"
     ++ cleanPrompt (expressionSelect_value sel) ++ "__"
     ++ cleanPrompt (styleSelect_value sel) ++ "__captured_"
     ++ cleanPrompt (cameraAngleSelect_value sel) ++ ".png")%string.
Proof.
  split; [exact cleanPrompt_append|].
  unfold download_filename, combinedPrompt.
  rewrite !cleanPrompt_append, !append_assoc. reflexivity.
Qed.



(** ** The scan of the response *)

Lemma first_inline_some (ps : list Part) (src : string) :
  first_inline ps = Some src ->
  exists b, first_inline_part ps b /\ src = data_uri b.
Proof.
  induction ps as [|p rest IH]; simpl; [discriminate|].
  destruct (inlineData p) as [b|] eqn:E.
  - intros H. injection H as <-. exists b. split; [now apply first_here | reflexivity].
  - intros H. destruct (IH H) as (b & Hb & ->).
    exists b. split; [now apply first_later | reflexivity].
Qed.

Lemma first_inline_none (ps : list Part) :
  first_inline ps = None -> no_inline ps.
Proof.
  induction ps as [|p rest IH]; simpl; [constructor|].
  destruct (inlineData p) eqn:E; [discriminate|].
  intros H. constructor; [exact E | now apply IH].
Qed.

Lemma first_inline_skips (pre : list Part) (p : Part) (b : Blob) (post : list Part) :
  no_inline pre -> inlineData p = Some b ->
  first_inline (pre ++ p :: post) = Some (data_uri b).
Proof.
  intros Hpre Hp. induction Hpre as [|q pre Hq _ IH]; simpl.
  - now rewrite Hp.
  - now rewrite Hq.
Qed.

Lemma data_uri_truthy (b : Blob) :
  String.prefix "data:" (data_uri b) = true /\ Js.truthy (Some (data_uri b)) = true.
Proof. unfold data_uri. split; [apply prefix_refl_app | reflexivity]. Qed.

(** X4: the scan returns null exactly when no part has inline data;
    otherwise it returns the data URI of the first such part, whatever
    follows it, and a missing [data] or [mimeType] is printed as
    "undefined".  What it returns is never the empty string, so the
    handler's else branch is taken for null only. *)
Theorem scan_returns_first_inline :
  (forall ps, first_inline ps = None <-> no_inline ps) /\
  (forall pre p b post,
      no_inline pre -> inlineData p = Some b ->
      first_inline (pre ++ p :: post) = Some (data_uri b)) /\
  (forall ps src,
      first_inline ps = Some src ->
      String.prefix "data:" src = true /\ Js.truthy (Some src) = true /\
      outcome (Return (Some src)) = Succeeded src) /\
  data_uri bare_blob = "data:undefined;base64,undefined".
Proof.
  split; [|split; [|split]].
  - intros ps. split; [apply first_inline_none | apply first_inline_absent].
  - exact first_inline_skips.
  - intros ps src H. destruct (first_inline_some ps src H) as (b & _ & ->).
    destruct (data_uri_truthy b) as [Hp Ht].
    split; [exact Hp|]. split; [exact Ht | reflexivity].
  - reflexivity.
Qed.

Lemma scan_returns_first_inline_witness :
  first_inline ([mkPart None (Some "Here it is.")]
                  ++ mkPart (Some bare_blob) None :: [mkPart (Some png_blob) None])
  = Some "data:undefined;base64,undefined".
Proof.
  destruct scan_returns_first_inline as (_ & Hfirst & _ & Hbare).
  rewrite <- Hbare. apply Hfirst; [repeat constructor | reflexivity].
Defined.

(** ** Which branch a settlement takes *)

Lemma settled_outcome_resume (prompt : string) (s : Settled) (st : Page) :
  outcome (fst (generateImage_resume prompt s st)) = settled_outcome s.
Proof.
  unfold generateImage_resume, settled_outcome.
  destruct (generateImage_try s); reflexivity.
Qed.

Lemma settle_by_outcome (att : Attempt) (s : Settled) (st : Page) :
  match settled_outcome s with
  | Succeeded src =>
      images (settle att s st)
      = images st ++ [mkImageLoad (att_placeholder att)
                        (mkNode (next_node st)
                           (ImageTile (result_container src (att_prompt att))))] /\
      resultsGrid (settle att s st) = resultsGrid st
  | Failed msg =>
      images (settle att s st) = images st /\
      guarded_swap (att_placeholder att) (ErrorTile msg)
        (resultsGrid st) (resultsGrid (settle att s st))
  end.
Proof.
  unfold settle, generateImage_resume, settled_outcome.
  destruct (generateImage_try s) as [e|v].
  - destruct (click_resume_failed_grid att (Throw e) "API error."
                (emit (ConsoleError (api_error_message (att_prompt att)) e) st)
                eq_refl) as [Hg Hi].
    split; [exact Hi | exact Hg].
  - destruct (outcome (Return v)) as [src|msg] eqn:E.
    + rewrite (click_resume_succeeded att _ src st E). split; reflexivity.
    + destruct (click_resume_failed_grid att _ msg st E) as [Hg Hi].
      split; [exact Hi | exact Hg].
Qed.

Lemma response_parts_cases (r : Response) :
  (exists ps, response_parts r = inr ps) \/ (exists e, response_parts r = inl e).
Proof. destruct (response_parts r) as [e|ps]; [right | left]; eauto. Qed.

(** X6: a settlement takes exactly one of three branches.  The image
    branch, with the data URI of the first inline part, when the call is
    fulfilled with a response that has a part list holding an inline
    part; "Generation failed." when it is fulfilled with a part list
    that holds none; "API error." when the call is rejected or the
    response has no part list to scan.  No other message occurs, and
    the settled attempt is rendered accordingly. *)
Theorem settlement_branches :
  (forall s src,
      settled_outcome s = Succeeded src <->
      exists r ps b,
        s = Fulfilled r /\ response_parts r = inr ps /\
        first_inline_part ps b /\ src = data_uri b) /\
  (forall s,
      settled_outcome s = Failed "Generation failed." <->
      exists r ps, s = Fulfilled r /\ response_parts r = inr ps /\ no_inline ps) /\
  (forall s,
      settled_outcome s = Failed "API error." <->
      (exists e, s = Rejected e) \/
      (exists r e, s = Fulfilled r /\ response_parts r = inl e)) /\
  (forall att s st,
      outcome (fst (generateImage_resume (att_prompt att) s st)) = settled_outcome s /\
      match settled_outcome s with
      | Succeeded src =>
          images (settle att s st)
          = images st ++ [mkImageLoad (att_placeholder att)
                            (mkNode (next_node st)
                               (ImageTile (result_container src (att_prompt att))))] /\
          resultsGrid (settle att s st) = resultsGrid st
      | Failed msg =>
          (msg = "Generation failed." \/ msg = "API error.") /\
          images (settle att s st) = images st /\
          guarded_swap (att_placeholder att) (ErrorTile msg)
            (resultsGrid st) (resultsGrid (settle att s st))
      end).
Proof.
  assert (Hscan : forall r ps, response_parts r = inr ps ->
            settled_outcome (Fulfilled r) = outcome (Return (first_inline ps))).
  { intros r ps H. unfold settled_outcome. simpl. now rewrite H. }
  assert (Hthrow : forall r e, response_parts r = inl e ->
            settled_outcome (Fulfilled r) = Failed "API error.").
  { intros r e H. unfold settled_outcome. simpl. now rewrite H. }
  split; [|split; [|split]].
  - intros s src. split.
    + destruct s as [r|e]; [|discriminate].
      destruct (response_parts_cases r) as [[ps Hps]|[e He]].
      * rewrite (Hscan r ps Hps).
        destruct (first_inline ps) as [v|] eqn:E; [|discriminate].
        destruct (first_inline_some ps v E) as (b & Hb & ->).
        intros H. injection H as <-. exists r, ps, b. repeat split; assumption.
      * rewrite (Hthrow r e He). discriminate.
    + intros (r & ps & b & -> & Hps & Hb & ->).
      rewrite (Hscan r ps Hps), (first_inline_found ps b Hb). reflexivity.
  - intros s. split.
    + destruct s as [r|e]; [|discriminate].
      destruct (response_parts_cases r) as [[ps Hps]|[e He]].
      * rewrite (Hscan r ps Hps).
        destruct (first_inline ps) as [v|] eqn:E.
        -- destruct (first_inline_some ps v E) as (b & _ & ->). discriminate.
        -- intros _. exists r, ps. repeat split; [exact Hps | now apply first_inline_none].
      * rewrite (Hthrow r e He). discriminate.
    + intros (r & ps & -> & Hps & Hnone).
      rewrite (Hscan r ps Hps). now apply outcome_absent.
  - intros s. split.
    + destruct s as [r|e]; [|intros _; left; now exists e].
      destruct (response_parts_cases r) as [[ps Hps]|[e He]].
      * rewrite (Hscan r ps Hps).
        destruct (first_inline ps) as [v|] eqn:E.
        -- destruct (first_inline_some ps v E) as (b & _ & ->). discriminate.
        -- discriminate.
      * intros _. right. now exists r, e.
    + intros [[e ->] | (r & e & -> & He)]; [reflexivity | now apply Hthrow with e].
  - intros att s st. split; [apply settled_outcome_resume|].
    pose proof (settle_by_outcome att s st) as H.
    destruct (settled_outcome s) as [src|msg] eqn:E; [exact H|].
    split; [|exact H].
    unfold settled_outcome in E. destruct (generateImage_try s) as [e|v].
    + injection E as <-. now right.
    + unfold outcome in E. destruct (Js.truthy v); [discriminate|].
      injection E as <-. now left.
Qed.

Lemma settlement_branches_witness :
  settled_outcome (Fulfilled png_response) = Succeeded "data:image/png;base64,AAAA" /\
  settled_outcome (Fulfilled text_only_response) = Failed "Generation failed." /\
  settled_outcome (Fulfilled blocked_response) = Failed "API error.".
Proof.
  destruct settlement_branches as (Hsucc & Hnone & Hthrow & _).
  split; [|split].
  - apply Hsucc.
    exists png_response, [mkPart None (Some "Here it is."); mkPart (Some png_blob) None],
      png_blob.
    repeat split. apply first_later; [reflexivity|]. now apply first_here.
  - apply Hnone.
    exists text_only_response, [mkPart None (Some "I cannot do that.")].
    repeat split. repeat constructor.
  - apply Hthrow. right.
    exists blocked_response, (TypeError "candidates is undefined"). split; reflexivity.
Defined.

(** X5: only the first candidate of a response is scanned.  When it has
    a part list without inline data the attempt fails with "Generation
    failed.", and when it has no content it fails with "API error.",
    whatever the other candidates carry; a response and the response
    cut down to its first candidate settle an attempt alike. *)
Theorem only_first_candidate_scanned (c : Candidate) (rest : list Candidate) :
  (forall att st,
      settle att (Fulfilled (mkResponse (Some (c :: rest)))) st
      = settle att (Fulfilled (mkResponse (Some [c]))) st) /\
  (forall ps,
      content c = Some (mkContent (Some ps)) -> no_inline ps ->
      settled_outcome (Fulfilled (mkResponse (Some (c :: rest))))
      = Failed "Generation failed.") /\
  (content c = None ->
   settled_outcome (Fulfilled (mkResponse (Some (c :: rest)))) = Failed "API error.").
Proof.
  split; [reflexivity|]. split.
  - intros ps Hc Hnone. unfold settled_outcome. simpl. unfold response_parts. simpl.
    rewrite Hc. simpl. now apply outcome_absent.
  - intros Hc. unfold settled_outcome. simpl. unfold response_parts. simpl.
    now rewrite Hc.
Qed.

Lemma only_first_candidate_scanned_witness :
  settled_outcome (Fulfilled image_in_second_candidate) = Failed "Generation failed.".
Proof.
  destruct (only_first_candidate_scanned
              (mkCandidate (Some (mkContent (Some [mkPart None (Some "Sorry.")]))))
              [mkCandidate (Some (mkContent (Some [mkPart (Some png_blob) None])))])
    as (_ & Hfirst & _).
  apply (Hfirst [mkPart None (Some "Sorry.")]).
  - reflexivity.
  - repeat constructor.
Defined.

(** ** From an upload to the request *)

Lemma nth_error_last {A : Type} (l : list A) (x : A) :
  nth_error (l ++ [x]) (length l) = Some x.
Proof. induction l as [|y l IH]; simpl; [reflexivity | exact IH]. Qed.

Lemma remove_nth_last {A : Type} (l : list A) (x : A) :
  remove_nth (length l) (l ++ [x]) = l.
Proof. induction l as [|y l IH]; simpl; [reflexivity | now rewrite IH]. Qed.

Lemma reader_onload_page (file : File) (st : Page) :
  reader_onload file (Platform.readAsDataURL file) st
  = mkPage (Some (upload_of file))
      (mkUploadView
         (Some ("data:" ++ file_type file ++ ";base64,"
                ++ Js.interpolate (base64 (upload_of file)))%string)
         false true (imageUploader_dragover (view st)))
      (mkControls false (poseSelect_disabled (controls st))
         (expressionSelect_disabled (controls st))
         (styleSelect_disabled (controls st))
         (cameraAngleSelect_disabled (controls st)))
      (selection st) (loadingIndicator_hidden st) (loadingMessage st)
      (resultsGrid st) (next_node st) (readers st) (requests st) (images st)
      (trace st).
Proof. reflexivity. Qed.

Lemma run_upload (file : File) (st : Page) :
  Js.startsWith (file_type file) "image/" = true ->
  run [FileInputChange (Some [file]); ReaderLoads (length (readers st))] st
  = Some (reader_onload file (Platform.readAsDataURL file) st).
Proof.
  intros H. cbn [run step handleFileSelect]. unfold handleFile. rewrite H.
  cbn [negb readers set_readers]. rewrite nth_error_last, remove_nth_last.
  destruct st. reflexivity.
Qed.

Lemma run_app (a b : list Event) (st : Page) :
  run (a ++ b) st
  = match run a st with
    | Some st1 => run b st1
    | None => None
    end.
Proof.
  revert st. induction a as [|e a IH]; intros st; simpl; [reflexivity|].
  destruct (step e st); [apply IH | reflexivity].
Qed.

Lemma run_upload_and_generate (file : File) (st : Page) :
  Js.startsWith (file_type file) "image/" = true ->
  run (upload_and_generate file st) st
  = Some (click (reader_onload file (Platform.readAsDataURL file) st)).
Proof.
  intros H. unfold upload_and_generate.
  change [FileInputChange (Some [file]); ReaderLoads (length (readers st)); GenerateClick]
    with ([FileInputChange (Some [file]); ReaderLoads (length (readers st))]
          ++ [GenerateClick]).
  rewrite run_app, (run_upload file st H), reader_onload_page. reflexivity.
Qed.

(** X7: selecting an image file whose type holds no comma, letting its
    reader load and clicking generate sends one request that carries the
    base64 text of the file's bytes with the file's type, and the
    instruction composed from the current selection.  The preview source
    rebuilt from the split data URL is the reader's result again. *)
Theorem upload_reaches_request (file : File) (st : Page) :
  Js.startsWith (file_type file) "image/" = true ->
  comma_free (file_type file) ->
  exists st',
    run (upload_and_generate file st) st = Some st' /\
    uploadedFile st'
    = Some (mkUploadedFile (Some (Platform.base64 (file_bytes file))) (file_type file)) /\
    imagePreview_src (view st') = Some (Platform.readAsDataURL file) /\
    imagePreview_hidden (view st') = false /\
    uploadPlaceholder_hidden (view st') = true /\
    trace st'
    = GenerateContent
        (mkRequest "gemini-2.5-flash-image-preview"
           [InlinePart (Some (Platform.base64 (file_bytes file))) (file_type file);
            TextPart (textPart (combinedPrompt (selection st)))]
           [IMAGE; TEXT])
      :: LoadingHidden false :: ControlsDisabled true :: trace st.
Proof.
  intros Hty Hfree.
  exists (click (reader_onload file (Platform.readAsDataURL file) st)).
  split; [now apply run_upload_and_generate|].
  assert (E : upload_of file
              = mkUploadedFile (Some (Platform.base64 (file_bytes file))) (file_type file)).
  { unfold upload_of. now rewrite (data_url_payload file Hfree). }
  rewrite reader_onload_page, E.
  erewrite click_with_upload; [|reflexivity].
  cbn [uploadedFile view imagePreview_src imagePreview_hidden
       uploadPlaceholder_hidden trace selection base64 Js.interpolate].
  repeat split.
Qed.

Lemma upload_reaches_request_witness :
  exists st',
    run (upload_and_generate sample_png fresh_page) fresh_page = Some st' /\
    uploadedFile st' = Some (mkUploadedFile (Some "iVBORw==") "image/png") /\
    imagePreview_src (view st') = Some "data:image/png;base64,iVBORw==".
Proof.
  assert (Hfree : comma_free (file_type sample_png)).
  { unfold comma_free. simpl. intuition discriminate. }
  destruct (upload_reaches_request sample_png fresh_page eq_refl Hfree)
    as (st' & Hrun & Hup & Hsrc & _).
  exists st'. split; [exact Hrun|]. split; [exact Hup | exact Hsrc].
Defined.

(** X8: a pending service call does not keep a new attempt from
    starting.  From any page, selecting an image, letting its reader load
    (which enables the generate button again) and clicking is accepted:
    the new attempt is queued behind the pending ones, all five controls
    are disabled, and the grid holds the new placeholder only, so that
    no earlier pending attempt finds its placeholder any more. *)
Theorem generate_not_exclusive (file : File) (st : Page) :
  Js.startsWith (file_type file) "image/" = true ->
  exists st',
    run (upload_and_generate file st) st = Some st' /\
    requests st'
    = requests st ++ [mkAttempt (next_node st) (combinedPrompt (selection st))] /\
    images st' = images st /\
    resultsGrid st' = [mkNode (next_node st) Placeholder] /\
    controls st' = all_disabled /\
    (ids_bounded st ->
     (forall att, In att (requests st) ->
                  contains (resultsGrid st') (att_placeholder att) = false) /\
     (forall il, In il (images st) ->
                 contains (resultsGrid st') (il_placeholder il) = false)).
Proof.
  intros Hty.
  exists (click (reader_onload file (Platform.readAsDataURL file) st)).
  split; [now apply run_upload_and_generate|].
  rewrite reader_onload_page. erewrite click_with_upload; [|reflexivity].
  cbn [requests images resultsGrid controls next_node selection contains existsb
       node_id].
  do 4 (split; [reflexivity|]).
  intros [Hr Hi]. split.
  - intros att H. specialize (Hr att H). rewrite orb_false_r.
    apply Nat.eqb_neq. lia.
  - intros il H. specialize (Hi il H). rewrite orb_false_r.
    apply Nat.eqb_neq. lia.
Qed.

Lemma generate_not_exclusive_witness :
  exists st',
    run (upload_and_generate sample_png (page_after single_attempt))
      (page_after single_attempt) = Some st' /\
    length (requests st') = 2 /\
    resultsGrid st' = [mkNode 1 Placeholder].
Proof.
  destruct (generate_not_exclusive sample_png (page_after single_attempt) eq_refl)
    as (st' & Hrun & Hreq & _ & Hgrid & _).
  exists st'. split; [exact Hrun|]. split.
  - rewrite Hreq. vm_compute. reflexivity.
  - rewrite Hgrid. vm_compute. reflexivity.
Defined.

(** X9: between the choice of an image file and the load of its reader
    nothing but the pending reader changes: the stored upload, the
    preview, the controls and the trace stay.  A generate click in that
    interval therefore sends the previous upload, and is rejected with
    the upload-first alert when there is none yet. *)
Theorem upload_is_deferred (file : File) (st : Page) :
  Js.startsWith (file_type file) "image/" = true ->
  handleFile file st = set_readers (readers st ++ [file]) st /\
  uploadedFile (handleFile file st) = uploadedFile st /\
  view (handleFile file st) = view st /\
  controls (handleFile file st) = controls st /\
  trace (handleFile file st) = trace st /\
  (forall up,
      uploadedFile st = Some up ->
      trace (click (handleFile file st))
      = GenerateContent (generateImage_request up (combinedPrompt (selection st)))
        :: LoadingHidden false :: ControlsDisabled true :: trace st) /\
  (uploadedFile st = None ->
   click (handleFile file st)
   = alert "Please upload an image first." (handleFile file st)).
Proof.
  intros Hty.
  assert (E : handleFile file st = set_readers (readers st ++ [file]) st).
  { unfold handleFile. now rewrite Hty. }
  rewrite E. do 5 (split; [reflexivity|]). split.
  - intros up Hup.
    now rewrite (click_with_upload (set_readers (readers st ++ [file]) st) up Hup).
  - intros Hup.
    exact (click_without_upload (set_readers (readers st ++ [file]) st) Hup).
Qed.

Lemma upload_is_deferred_witness :
  uploadedFile (handleFile sample_png fresh_page) = None /\
  readers (handleFile sample_png fresh_page) = [sample_png] /\
  trace (click (handleFile sample_png fresh_page))
  = [Alert "Please upload an image first."].
Proof.
  destruct (upload_is_deferred sample_png fresh_page eq_refl)
    as (E & Hup & _ & _ & _ & _ & Hnone).
  split; [rewrite Hup; reflexivity|]. split; [rewrite E; reflexivity|].
  rewrite (Hnone eq_refl), E. reflexivity.
Defined.

(** X10: a drop or a file selection handles the first file only.  The
    highlight of the drop zone is cleared in every case; without files
    nothing else happens; and when the first file is not an image the
    alert is raised and no reader is started, even if an image follows
    it in the list. *)
Theorem first_file_only (st : Page) :
  (forall files, imageUploader_dragover (view (drop files st)) = false /\
                 length (readers (drop files st)) <= S (length (readers st))) /\
  (forall file rest,
      drop (Some (file :: rest)) st = drop (Some [file]) st /\
      handleFileSelect (Some (file :: rest)) st = handleFileSelect (Some [file]) st) /\
  (drop None st = drop (Some []) st /\
   readers (drop None st) = readers st /\
   trace (drop None st) = trace st /\
   handleFileSelect None st = st /\ handleFileSelect (Some []) st = st) /\
  (forall file rest,
      Js.startsWith (file_type file) "image/" = false ->
      readers (drop (Some (file :: rest)) st) = readers st /\
      trace (drop (Some (file :: rest)) st)
      = Alert "Please select an image file." :: trace st /\
      readers (handleFileSelect (Some (file :: rest)) st) = readers st /\
      trace (handleFileSelect (Some (file :: rest)) st)
      = Alert "Please select an image file." :: trace st).
Proof.
  split; [|split; [|split]].
  - intros files. unfold drop, handleFile.
    destruct files as [[|file rest]|]; try (split; [reflexivity | simpl; lia]).
    destruct (negb (Js.startsWith (file_type file) "image/")).
    + split; [reflexivity | simpl; lia].
    + split; [reflexivity|]. cbn [readers set_readers set_dragover set_view].
      rewrite length_app. simpl. lia.
  - intros file rest. split; reflexivity.
  - repeat split.
  - intros file rest H. unfold drop, handleFileSelect, handleFile. rewrite H.
    repeat split.
Qed.

Lemma first_file_only_witness :
  readers (drop (Some [sample_pdf; sample_png]) fresh_page) = [] /\
  trace (drop (Some [sample_pdf; sample_png]) fresh_page)
  = [Alert "Please select an image file."].
Proof.
  destruct (first_file_only fresh_page) as (_ & _ & _ & Hreject).
  destruct (Hreject sample_pdf [sample_png] eq_refl) as (Hr & Ht & _).
  split; [rewrite Hr; reflexivity | rewrite Ht; reflexivity].
Defined.



(** ** The grid over time *)

Lemma length_replaceChild (new : Node) (old : nat) (g : list Node) :
  length (replaceChild new old g) = length g.
Proof.
  induction g as [|n g IH]; simpl; [reflexivity|].
  destruct (Nat.eqb (node_id n) old); simpl; [reflexivity | now rewrite IH].
Qed.

Lemma replaceChild_keeps (n new : Node) (old : nat) (g : list Node) :
  In n g -> node_id n <> old -> In n (replaceChild new old g).
Proof.
  induction g as [|m g IH]; simpl; [tauto|].
  intros [-> | H] Hne.
  - apply Nat.eqb_neq in Hne. rewrite Hne. now left.
  - destruct (Nat.eqb (node_id m) old); right; [exact H | now apply IH].
Qed.

Lemma rendered_length (ph : nat) (new : Node) (g g' : list Node) :
  rendered ph new g g' -> length g' = length g.
Proof. intros [-> | ->]; [reflexivity | apply length_replaceChild]. Qed.

Lemma step_grid_length (e : Event) (st st' : Page) :
  step e st = Some st' ->
  length (resultsGrid st') = length (resultsGrid st) \/
  resultsGrid st' = [mkNode (next_node st) Placeholder].
Proof.
  intros H. destruct (step_grid_change e st st' H)
    as [_ _ Hg _ | prompt _ _ Hg _ | i att c _ _ _ Hg _ | i att msg _ _ _ Hg _
       | i il _ _ _ Hg _ | i il msg _ _ _ Hg _].
  - left. now rewrite Hg.
  - now right.
  - left. now rewrite Hg.
  - left. now apply rendered_length in Hg.
  - left. now apply rendered_length in Hg.
  - left. now apply rendered_length in Hg.
Qed.

(** X12: the results grid never accumulates tiles.  Along every run a
    grid with at most one child keeps at most one child, and once it
    holds one tile (from the first accepted click on) it holds exactly
    one after every later event. *)
Theorem grid_holds_one_tile (evs : list Event) :
  forall st st',
    run evs st = Some st' ->
    (length (resultsGrid st) <= 1 -> length (resultsGrid st') <= 1) /\
    (length (resultsGrid st) = 1 -> length (resultsGrid st') = 1).
Proof.
  induction evs as [|e evs IH]; simpl; intros st st' H.
  - injection H as <-. tauto.
  - destruct (step e st) as [st1|] eqn:E; [|discriminate].
    destruct (IH st1 st' H) as [Hle Heq].
    destruct (step_grid_length e st st1 E) as [Hl | Hl].
    + rewrite Hl in *. tauto.
    + rewrite Hl in *. simpl in *. split; intros _; [apply Hle | apply Heq]; lia.
Qed.

Lemma grid_holds_one_tile_witness :
  length (resultsGrid fresh_page) <= 1 /\
  length (resultsGrid (page_after render_failure_run)) <= 1.
Proof.
  assert (R : run render_failure_run fresh_page
              = Some (page_after render_failure_run)) by (vm_compute; reflexivity).
  assert (H0 : length (resultsGrid fresh_page) <= 1) by (simpl; lia).
  split; [exact H0|].
  exact (proj1 (grid_holds_one_tile render_failure_run fresh_page _ R) H0).
Defined.

Lemma step_leaves_grid (e : Event) (st st' : Page) :
  touches_grid e = false -> step e st = Some st' ->
  resultsGrid st' = resultsGrid st.
Proof.
  destruct e as [| |files|files|i|w v| |i s|i|i]; simpl; intros Ht H;
    try discriminate.
  - now injection H as <-.
  - now injection H as <-.
  - injection H as <-. unfold drop.
    destruct files as [[|file rest]|]; try reflexivity.
    now destruct (handleFile_frame file (set_dragover false st)) as (_ & _ & _ & -> & _).
  - injection H as <-. unfold handleFileSelect.
    destruct files as [[|file rest]|]; try reflexivity.
    now destruct (handleFile_frame file st) as (_ & _ & _ & -> & _).
  - destruct (nth_error (readers st) i); [|discriminate]. now injection H as <-.
  - destruct (select_disabled w (controls st)); [discriminate|]. now injection H as <-.
Qed.

Lemma owned_tile_kept (st : Page) (n new : Node) (ph : nat) (g' : list Node) :
  placeholders_owned st ->
  In ph (pending_placeholders st) ->
  In n (resultsGrid st) -> node_tile n <> Placeholder ->
  rendered ph new (resultsGrid st) g' ->
  In n g'.
Proof.
  intros (_ & _ & _ & Hgrid) Hph Hn Htile [-> | ->]; [exact Hn|].
  apply replaceChild_keeps; [exact Hn|].
  intros E. apply Htile. apply Hgrid; [exact Hn | now rewrite E].
Qed.

(** X13: a rendered outcome is final.  On every reachable page a child
    of the grid that is no placeholder (an image tile or an error tile)
    is still in the grid after any event, except that a generate click
    with an upload present clears the grid for its own placeholder. *)
Theorem rendered_tile_is_final (e : Event) (st st' : Page) (n : Node) :
  reachable st ->
  step e st = Some st' ->
  In n (resultsGrid st) ->
  node_tile n <> Placeholder ->
  In n (resultsGrid st') \/
  (e = GenerateClick /\ uploadedFile st <> None /\
   resultsGrid st' = [mkNode (next_node st) Placeholder]).
Proof.
  intros Hreach Hstep Hn Htile.
  pose proof (reachable_placeholders_owned st Hreach) as Hown.
  destruct (touches_grid e) eqn:Ht.
  - destruct e as [| |files|files|i|w v| |i s|i|i]; try discriminate; simpl in Hstep.
    + destruct (generateBtn_disabled (controls st)); [discriminate|].
      injection Hstep as <-. destruct (uploadedFile st) as [up|] eqn:E.
      * right. rewrite (click_with_upload st up E).
        split; [reflexivity|]. split; [discriminate | reflexivity].
      * left. now rewrite (click_without_upload st E).
    + destruct (nth_error (requests st) i) as [att|] eqn:E; [|discriminate].
      injection Hstep as <-. left.
      assert (Hph : In (att_placeholder att) (pending_placeholders st)).
      { unfold pending_placeholders. apply in_or_app. left.
        apply in_map. now apply nth_error_In with i. }
      destruct (settle_change att s (set_requests (remove_nth i (requests st)) st))
        as [_ [(rc & _ & -> & _) | (msg & _ & Hr & _)]]; [exact Hn|].
      exact (owned_tile_kept st n _ _ _ Hown Hph Hn Htile Hr).
    + destruct (nth_error (images st) i) as [il|] eqn:E; [|discriminate].
      injection Hstep as <-. left.
      assert (Hph : In (il_placeholder il) (pending_placeholders st)).
      { unfold pending_placeholders. apply in_or_app. right.
        apply in_map. now apply nth_error_In with i. }
      apply (owned_tile_kept st n (il_container il) (il_placeholder il) _ Hown Hph Hn Htile).
      unfold img_onload, rendered. cbn [resultsGrid set_images].
      destruct (contains (resultsGrid st) (il_placeholder il)); [now right | now left].
    + destruct (nth_error (images st) i) as [il|] eqn:E; [|discriminate].
      injection Hstep as <-. left.
      assert (Hph : In (il_placeholder il) (pending_placeholders st)).
      { unfold pending_placeholders. apply in_or_app. right.
        apply in_map. now apply nth_error_In with i. }
      apply (owned_tile_kept st n (mkNode (next_node st) (ErrorTile "Failed to load image."))
               (il_placeholder il) _ Hown Hph Hn Htile).
      unfold img_onerror, replace_with_error, rendered. cbn [resultsGrid set_images].
      destruct (contains (resultsGrid st) (il_placeholder il)); [now right | now left].
  - left. now rewrite (step_leaves_grid e st st' Ht Hstep).
Qed.

Lemma rendered_tile_is_final_witness :
  In (mkNode 1 (ErrorTile "Generation failed."))
     (resultsGrid (drop (Some [sample_png]) (page_after failed_attempt))).
Proof.
  assert (R : run failed_attempt fresh_page = Some (page_after failed_attempt))
    by (vm_compute; reflexivity).
  assert (Hin : In (mkNode 1 (ErrorTile "Generation failed."))
                   (resultsGrid (page_after failed_attempt)))
    by (vm_compute; left; reflexivity).
  destruct (rendered_tile_is_final (Drop (Some [sample_png]))
              (page_after failed_attempt)
              (drop (Some [sample_png]) (page_after failed_attempt))
              (mkNode 1 (ErrorTile "Generation failed."))
              (run_reachable _ _ _ (reach_start _ fresh_page_start) R)
              eq_refl Hin ltac:(discriminate))
    as [H | (H & _)]; [exact H | discriminate H].
Defined.

(** ** Controls and alerts over time *)

Lemma step_keeps_disabled (e : Event) (st st' : Page) :
  controls st = all_disabled ->
  step e st = Some st' ->
  may_enable e = false ->
  controls st' = all_disabled /\
  loadingIndicator_hidden st' = loadingIndicator_hidden st.
Proof.
  intros Hc.
  destruct e as [| |files|files|i|w v| |i s|i|i]; simpl; intros H Hm;
    try discriminate.
  - injection H as <-. now split.
  - injection H as <-. now split.
  - injection H as <-. unfold drop, handleFile.
    destruct files as [[|file rest]|]; try (now split).
    destruct (negb (Js.startsWith (file_type file) "image/")); now split.
  - injection H as <-. unfold handleFileSelect, handleFile.
    destruct files as [[|file rest]|]; try (now split).
    destruct (negb (Js.startsWith (file_type file) "image/")); now split.
  - rewrite Hc in H. destruct w; discriminate.
  - rewrite Hc in H. discriminate.
  - destruct (nth_error (images st) i) as [il|]; [|discriminate].
    injection H as <-.
    destruct (img_onload_frame il (set_images (remove_nth i (images st)) st))
      as (_ & -> & -> & _).
    now split.
  - destruct (nth_error (images st) i) as [il|]; [|discriminate].
    injection H as <-.
    destruct (img_onerror_frame il (set_images (remove_nth i (images st)) st))
      as (_ & -> & -> & _).
    now split.
Qed.

(** X14: while the five controls are disabled, neither a generate click
    nor a selection change can reach the script, and no event other than
    the load of a file reader or the settlement of a service call enables
    a control or touches the loading indicator.  A service call that
    never settles thus leaves the controls disabled and the indicator
    shown for as long as no file is read. *)
Theorem disabled_until_settled :
  (forall st,
      controls st = all_disabled ->
      step GenerateClick st = None /\
      forall w v, step (SelectChange w v) st = None) /\
  (forall st up,
      uploadedFile st = Some up ->
      controls (click st) = all_disabled /\
      loadingIndicator_hidden (click st) = false) /\
  (forall evs st st',
      controls st = all_disabled ->
      run evs st = Some st' ->
      forallb (fun e => negb (may_enable e)) evs = true ->
      controls st' = all_disabled /\
      loadingIndicator_hidden st' = loadingIndicator_hidden st).
Proof.
  split; [|split].
  - intros st Hc. simpl. rewrite Hc. split; [reflexivity|].
    intros w v. destruct w; reflexivity.
  - intros st up Hup. rewrite (click_with_upload st up Hup). now split.
  - intros evs. induction evs as [|e evs IH]; simpl; intros st st' Hc H Hall.
    + injection H as <-. now split.
    + destruct (step e st) as [st1|] eqn:E; [|discriminate].
      apply andb_prop in Hall. destruct Hall as [He Hrest].
      apply negb_true_iff in He.
      destruct (step_keeps_disabled e st st1 Hc E He) as [Hc1 Hl1].
      destruct (IH st1 st' Hc1 H Hrest) as [Hc' Hl'].
      split; [exact Hc' | now rewrite Hl', Hl1].
Qed.

Lemma disabled_until_settled_witness :
  let st := page_after single_attempt in
  let evs := [Drop (Some [sample_pdf]); DragOver; FileInputChange (Some [sample_png])] in
  step GenerateClick st = None /\
  controls (page_after (single_attempt ++ evs)) = all_disabled /\
  loadingIndicator_hidden (page_after (single_attempt ++ evs)) = false.
Proof.
  cbv zeta.
  destruct disabled_until_settled as (Hblocked & _ & Hrun).
  assert (Hc : controls (page_after single_attempt) = all_disabled)
    by (vm_compute; reflexivity).
  split; [exact (proj1 (Hblocked _ Hc))|].
  assert (R : run [Drop (Some [sample_pdf]); DragOver; FileInputChange (Some [sample_png])]
                (page_after single_attempt)
              = Some (page_after (single_attempt
                                  ++ [Drop (Some [sample_pdf]); DragOver;
                                      FileInputChange (Some [sample_png])])))
    by (vm_compute; reflexivity).
  destruct (Hrun _ _ _ Hc R eq_refl) as [Hc' Hl'].
  split; [exact Hc' | rewrite Hl'; vm_compute; reflexivity].
Defined.

Lemma step_trace_alerts (e : Event) (st st' : Page) :
  step e st = Some st' ->
  exists delta,
    trace st' = delta ++ trace st /\
    Forall validation_alert delta /\
    (uploadedFile st <> None -> Forall not_upload_first delta).
Proof.
  destruct e as [| |files|files|i|w v| |i s|i|i]; simpl; intros H.
  - injection H as <-. exists []. repeat split; constructor.
  - injection H as <-. exists []. repeat split; constructor.
  - injection H as <-. unfold drop, handleFile.
    destruct files as [[|file rest]|]; try (exists []; repeat split; constructor).
    destruct (negb (Js.startsWith (file_type file) "image/")).
    + exists [Alert "Please select an image file."].
      split; [reflexivity|]. split; [|intros _].
      * constructor; [now left | constructor].
      * constructor; [reflexivity | constructor].
    + exists []. repeat split; constructor.
  - injection H as <-. unfold handleFileSelect, handleFile.
    destruct files as [[|file rest]|]; try (exists []; repeat split; constructor).
    destruct (negb (Js.startsWith (file_type file) "image/")).
    + exists [Alert "Please select an image file."].
      split; [reflexivity|]. split; [|intros _].
      * constructor; [now left | constructor].
      * constructor; [reflexivity | constructor].
    + exists []. repeat split; constructor.
  - destruct (nth_error (readers st) i); [|discriminate].
    injection H as <-. exists []. repeat split; constructor.
  - destruct (select_disabled w (controls st)); [discriminate|].
    injection H as <-. exists []. repeat split; constructor.
  - destruct (generateBtn_disabled (controls st)); [discriminate|].
    injection H as <-. destruct (uploadedFile st) as [up|] eqn:E.
    + rewrite (click_with_upload st up E).
      exists [GenerateContent (generateImage_request up (combinedPrompt (selection st)));
              LoadingHidden false; ControlsDisabled true].
      repeat split; repeat constructor.
    + rewrite (click_without_upload st E).
      exists [Alert "Please upload an image first."].
      split; [reflexivity|]. split; [constructor; [now right | constructor]|].
      intros Hne. now destruct Hne.
  - destruct (nth_error (requests st) i) as [att|]; [|discriminate].
    injection H as <-.
    destruct (settle_trace att s (set_requests (remove_nth i (requests st)) st))
      as (logged & Ht & _ & _ & _ & Ha).
    exists (ControlsDisabled false :: LoadingHidden true :: logged).
    split; [exact Ht|].
    assert (Hnone : forall P : Effect -> Prop,
               (forall e, is_alert e = false -> P e) -> Forall P logged).
    { intros P HP. clear Ht. induction logged as [|x l IH]; [constructor|].
      simpl in Ha. destruct (is_alert x) eqn:Ex; [discriminate|].
      constructor; [now apply HP | now apply IH]. }
    split; [|intros _]; repeat constructor; apply Hnone;
      intros x Hx; destruct x; try exact I; discriminate.
  - destruct (nth_error (images st) i) as [il|]; [|discriminate].
    injection H as <-. exists [].
    destruct (img_onload_frame il (set_images (remove_nth i (images st)) st))
      as (-> & _).
    repeat split; constructor.
  - destruct (nth_error (images st) i) as [il|]; [|discriminate].
    injection H as <-. exists [].
    destruct (img_onerror_frame il (set_images (remove_nth i (images st)) st))
      as (-> & _).
    repeat split; constructor.
Qed.

Lemma run_trace_alerts (evs : list Event) :
  forall st st',
    run evs st = Some st' ->
    exists delta, trace st' = delta ++ trace st /\ Forall validation_alert delta.
Proof.
  induction evs as [|e evs IH]; simpl; intros st st' H.
  - injection H as <-. exists []. split; [reflexivity | constructor].
  - destruct (step e st) as [st1|] eqn:E; [|discriminate].
    destruct (step_trace_alerts e st st1 E) as (d1 & Ht1 & Hd1 & _).
    destruct (IH st1 st' H) as (d2 & Ht2 & Hd2).
    exists (d2 ++ d1). split.
    + now rewrite Ht2, Ht1, app_assoc.
    + apply Forall_app. now split.
Qed.

(** X15: the script raises no alert but the two validation messages:
    along every run each effect added to the trace is either no alert or
    one of "Please select an image file." and "Please upload an image
    first.", so on every reachable page no other alert was ever shown;
    in particular no service or render failure alerts. *)
Theorem only_validation_alerts :
  (forall evs st st',
      run evs st = Some st' ->
      exists delta, trace st' = delta ++ trace st /\ Forall validation_alert delta) /\
  (forall st msg,
      reachable st ->
      In (Alert msg) (trace st) ->
      msg = "Please select an image file." \/ msg = "Please upload an image first.").
Proof.
  split; [exact run_trace_alerts|].
  intros st msg Hreach.
  assert (H : Forall validation_alert (trace st)).
  { induction Hreach as [st (_ & _ & _ & _ & Ht) | st e st' _ IH Hstep].
    - rewrite Ht. constructor.
    - destruct (step_trace_alerts e st st' Hstep) as (d & -> & Hd & _).
      apply Forall_app. now split. }
  intros Hin. rewrite Forall_forall in H. exact (H _ Hin).
Qed.

Lemma only_validation_alerts_witness :
  let evs := [GenerateClick; Drop (Some [sample_pdf])] in
  trace (page_after (failed_attempt ++ evs))
  = [Alert "Please select an image file."; GenerateContent
       (generateImage_request (upload_of sample_png)
          "standing, with a smile, in a suit, captured from the front");
     LoadingHidden false; ControlsDisabled true]
    ++ trace (page_after failed_attempt) /\
  forall msg,
    In (Alert msg) (trace (page_after (failed_attempt ++ evs))) ->
    msg = "Please select an image file." \/ msg = "Please upload an image first.".
Proof.
  cbv zeta. split; [vm_compute; reflexivity|].
  intros msg.
  apply (proj2 only_validation_alerts).
  apply (run_reachable (failed_attempt ++ [GenerateClick; Drop (Some [sample_pdf])])
           fresh_page).
  - exact (reach_start _ fresh_page_start).
  - vm_compute. reflexivity.
Defined.

Lemma step_upload_stays (e : Event) (st st' : Page) :
  uploadedFile st <> None -> step e st = Some st' -> uploadedFile st' <> None.
Proof.
  intros Hne H. destruct (step_upload e st st' H) as [-> | (i & file & _ & _ & ->)];
    [exact Hne | discriminate].
Qed.

(** X16: nothing ever clears the stored upload.  Once an image is
    stored, it stays stored along every run (later loads replace it),
    every accepted generate click passes the guard, and the alert
    "Please upload an image first." is never raised again. *)
Theorem upload_never_cleared (evs : list Event) :
  forall st st',
    uploadedFile st <> None ->
    run evs st = Some st' ->
    uploadedFile st' <> None /\
    (exists delta, trace st' = delta ++ trace st /\ Forall not_upload_first delta) /\
    (forall up, uploadedFile st' = Some up ->
                calls (trace (click st')) = S (calls (trace st')) /\
                filter is_alert (trace (click st')) = filter is_alert (trace st')).
Proof.
  induction evs as [|e evs IH]; simpl; intros st st' Hne H.
  - injection H as <-. split; [exact Hne|]. split.
    + exists []. split; [reflexivity | constructor].
    + intros up Hup. rewrite (click_with_upload st up Hup). split; reflexivity.
  - destruct (step e st) as [st1|] eqn:E; [|discriminate].
    pose proof (step_upload_stays e st st1 Hne E) as Hne1.
    destruct (step_trace_alerts e st st1 E) as (d1 & Ht1 & _ & Hd1).
    destruct (IH st1 st' Hne1 H) as (Hne' & (d2 & Ht2 & Hd2) & Hclick).
    split; [exact Hne'|]. split; [|exact Hclick].
    exists (d2 ++ d1). split.
    + now rewrite Ht2, Ht1, app_assoc.
    + apply Forall_app. split; [exact Hd2 | now apply Hd1].
Qed.

Lemma upload_never_cleared_witness :
  uploadedFile (page_after (failed_attempt ++ [GenerateClick; Drop (Some [sample_pdf])]))
  <> None.
Proof.
  assert (Hne : uploadedFile uploaded_page <> None) by (vm_compute; discriminate).
  assert (R : run ([GenerateClick; ServiceSettles 0 (Fulfilled text_only_response)]
                   ++ [GenerateClick; Drop (Some [sample_pdf])]) uploaded_page
              = Some (page_after (failed_attempt
                                  ++ [GenerateClick; Drop (Some [sample_pdf])])))
    by (vm_compute; reflexivity).
  exact (proj1 (upload_never_cleared _ uploaded_page _ Hne R)).
Defined.

Lemma app_last_not_nil {A : Type} (l : list A) (x : A) : l ++ [x] <> [].
Proof. destruct l; discriminate. Qed.

Lemma step_idle_ready (e : Event) (st st' : Page) :
  idle_ready st -> step e st = Some st' -> idle_ready st'.
Proof.
  intros Hidle.
  destruct e as [| |files|files|i|w v| |i s|i|i]; simpl; intros H.
  - injection H as <-. exact Hidle.
  - injection H as <-. exact Hidle.
  - injection H as <-. unfold drop, handleFile.
    destruct files as [[|file rest]|]; try exact Hidle.
    destruct (negb (Js.startsWith (file_type file) "image/")); exact Hidle.
  - injection H as <-. unfold handleFileSelect, handleFile.
    destruct files as [[|file rest]|]; try exact Hidle.
    destruct (negb (Js.startsWith (file_type file) "image/")); exact Hidle.
  - destruct (nth_error (readers st) i) as [file|]; [|discriminate].
    injection H as <-. intros Hr.
    destruct (Hidle Hr) as (H1 & H2 & H3 & H4 & H5 & _).
    repeat split; assumption.
  - destruct (select_disabled w (controls st)); [discriminate|].
    injection H as <-. exact Hidle.
  - destruct (generateBtn_disabled (controls st)); [discriminate|].
    injection H as <-. destruct (uploadedFile st) as [up|] eqn:E.
    + rewrite (click_with_upload st up E). intros Hr. cbn [requests] in Hr.
      now destruct (app_last_not_nil _ _ Hr).
    + rewrite (click_without_upload st E). intros Hr.
      destruct (Hidle Hr) as (H1 & H2 & H3 & H4 & H5 & _).
      repeat split; try assumption. cbn [uploadedFile alert emit]. rewrite E.
      intros Hne. now destruct Hne.
  - destruct (nth_error (requests st) i) as [att|]; [|discriminate].
    injection H as <-. intros _.
    destruct (settle_frame att s (set_requests (remove_nth i (requests st)) st))
      as (Hc & Hl & _).
    rewrite Hc, Hl. repeat split.
  - destruct (nth_error (images st) i) as [il|]; [|discriminate].
    injection H as <-.
    destruct (img_onload_frame il (set_images (remove_nth i (images st)) st))
      as (_ & Hc & Hl & Hu & _ & Hr & _).
    unfold idle_ready. rewrite Hc, Hl, Hu, Hr. exact Hidle.
  - destruct (nth_error (images st) i) as [il|]; [|discriminate].
    injection H as <-.
    destruct (img_onerror_frame il (set_images (remove_nth i (images st)) st))
      as (_ & Hc & Hl & Hu & _ & Hr & _).
    unfold idle_ready. rewrite Hc, Hl, Hu, Hr. exact Hidle.
Qed.

(** X17: the page is never left blocked without a call in flight.  If
    the page is ready when idle (selects enabled, loading indicator
    hidden, generate button enabled once an upload is stored), it is so
    again after every run: whenever no service call is pending the
    selects are enabled, the indicator is hidden, and with an upload
    stored the generate button is enabled. *)
Theorem idle_page_is_ready (evs : list Event) :
  forall st st', idle_ready st -> run evs st = Some st' -> idle_ready st'.
Proof.
  induction evs as [|e evs IH]; simpl; intros st st' Hidle H.
  - now injection H as <-.
  - destruct (step e st) as [st1|] eqn:E; [|discriminate].
    apply (IH st1 st'); [|exact H]. now apply (step_idle_ready e st).
Qed.

Lemma idle_page_is_ready_witness :
  idle_ready fresh_page /\
  requests (page_after render_failure_run) = [] /\
  controls (page_after render_failure_run) = all_enabled /\
  loadingIndicator_hidden (page_after render_failure_run) = true.
Proof.
  assert (H0 : idle_ready fresh_page).
  { intros _. repeat split. intros Hne. now destruct Hne. }
  assert (R : run render_failure_run fresh_page
              = Some (page_after render_failure_run)) by (vm_compute; reflexivity).
  assert (Hr : requests (page_after render_failure_run) = []) by (vm_compute; reflexivity).
  destruct (idle_page_is_ready render_failure_run fresh_page _ H0 R Hr)
    as (H1 & H2 & H3 & H4 & H5 & H6).
  split; [exact H0|]. split; [exact Hr|]. split; [|exact H5].
  assert (Hne : uploadedFile (page_after render_failure_run) <> None)
    by (vm_compute; discriminate).
  specialize (H6 Hne).
  destruct (controls (page_after render_failure_run)) as [g p e s c].
  simpl in *. now subst.
Defined.
